(** * Datastar SSE encoder and streamers

    A shallow embedding of [datastar/datastar.py]: the event encoder
    ([DatastarEvent]), the gated streaming loop ([DatastarStreamer.stream])
    and the unconditional pump ([create_sse_stream]).

    Python values are embedded as the inductive [pyval]; a [str] is a Rocq
    [string], each character read as a code point below 256.  Exceptions are
    an explicit [result]; generators are the list of values they yield
    together with the exception that ended them, if any. *)

From Stdlib Require Import ZArith List String Ascii Bool Lia DecimalString DecimalPos DecimalZ.
Import ListNotations.
Local Open Scope string_scope.
Local Open Scope Z_scope.
Set Warnings "-register-all".

(** ** Characters and strings *)

(** The line feed and the double quote, by code. *)
Definition nl : string := String (ascii_of_nat 10) EmptyString.
Definition dquote : string := String (ascii_of_nat 34) EmptyString.

(** [str(n)] for a Python [int]. *)
Definition Z_str (z : Z) : string := NilZero.string_of_int (Z.to_int z).

(** [sep.join(l)]. *)
Definition join (sep : string) (l : list string) : string := String.concat sep l.

(** [c in s]. *)
Fixpoint contains_char (c : ascii) (s : string) : bool :=
  match s with
  | EmptyString => false
  | String a s' => Ascii.eqb a c || contains_char c s'
  end.

(** The lines of a text: what [s.split('\n')] gives. *)
Definition newline : ascii := ascii_of_nat 10.

Fixpoint text_lines (s : string) : list string :=
  match s with
  | EmptyString => [EmptyString]
  | String c rest =>
      if Ascii.eqb c newline then EmptyString :: text_lines rest
      else match text_lines rest with
           | l :: ls => String c l :: ls
           | [] => [String c EmptyString]
           end
  end.

(** [s] without its prefix [p], when it starts with it. *)
Fixpoint strip_prefix (p s : string) : option string :=
  match p with
  | EmptyString => Some s
  | String a p' =>
      match s with
      | String b s' => if Ascii.eqb a b then strip_prefix p' s' else None
      | EmptyString => None
      end
  end.

(** The data lines a block's text has on the wire: its lines that start with
    [data: ], without that prefix. *)
Definition wire_data_lines (b : string) : list string :=
  flat_map (fun l => match strip_prefix "data: " l with
                     | Some x => [x]
                     | None => []
                     end) (text_lines b).

(** The part of a line before its first space: the field name of a data line. *)
Fixpoint field_name (line : string) : string :=
  match line with
  | EmptyString => EmptyString
  | String a rest => if Ascii.eqb a " "%char then EmptyString else String a (field_name rest)
  end.

(** [names] is a subsequence of [order]: the names come in the order of [order],
    each at most once. *)
Fixpoint in_order (order names : list string) : bool :=
  match names, order with
  | [], _ => true
  | _ :: _, [] => false
  | n :: names', o :: order' =>
      if String.eqb n o then in_order order' names' else in_order order' names
  end.

(** ** The closed vocabularies *)

Inductive EventType := FRAGMENT | SIGNAL.

Definition EventType_value (t : EventType) : string :=
  match t with
  | FRAGMENT => "datastar-fragment"
  | SIGNAL => "datastar-signal"
  end.

Inductive MergeType :=
  MORPH | INNER | OUTER | PREPEND | APPEND | BEFORE | AFTER | DELETE | UPSERT_ATTRIBUTES.

Definition MergeType_value (m : MergeType) : string :=
  match m with
  | MORPH => "morph_element"
  | INNER => "inner_element"
  | OUTER => "outer_element"
  | PREPEND => "prepend_element"
  | APPEND => "append_element"
  | BEFORE => "before_element"
  | AFTER => "after_element"
  | DELETE => "delete_element"
  | UPSERT_ATTRIBUTES => "upsert_attributes"
  end.

(** ** Python values *)

(** The values a content, a payload or a dict entry can be: [None], a [bool],
    an [int], a [str], a member of [MergeType] or of [EventType] (each itself a
    [str], with a [.value]), a [list], or a [dict] with string keys in insertion
    order (keys are distinct in Python; a lookup takes the first entry of a
    key). *)
Inductive pyval :=
| PNone
| PBool (b : bool)
| PInt (z : Z)
| PStr (s : string)
| PMerge (m : MergeType)
| PKind (t : EventType)
| PList (l : list pyval)
| PDict (d : list (string * pyval)).

Definition pydict := list (string * pyval).

(** [d[k]], when the key is there. *)
Fixpoint dict_lookup (k : string) (d : pydict) : option pyval :=
  match d with
  | [] => None
  | (k', v) :: d' => if String.eqb k' k then Some v else dict_lookup k d'
  end.

(** [d.get(k)]: [None] for a missing key. *)
Definition dict_get (k : string) (d : pydict) : pyval :=
  match dict_lookup k d with
  | Some v => v
  | None => PNone
  end.

(** [bool(v)]. Every member of [MergeType] and of [EventType] has a non-empty
    value. *)
Definition truthy (v : pyval) : bool :=
  match v with
  | PNone => false
  | PBool b => b
  | PInt z => negb (z =? 0)
  | PStr s => negb (String.eqb s "")
  | PMerge _ => true
  | PKind _ => true
  | PList l => match l with [] => false | _ => true end
  | PDict d => match d with [] => false | _ => true end
  end.

(** [a or b]. *)
Definition py_or (a b : pyval) : pyval := if truthy a then a else b.

(** [isinstance(v, dict)], [isinstance(v, str)], [isinstance(v, list)]. *)
Definition is_dict (v : pyval) : bool := match v with PDict _ => true | _ => false end.
Definition is_str (v : pyval) : bool :=
  match v with PStr _ | PMerge _ | PKind _ => true | _ => false end.
Definition is_list (v : pyval) : bool := match v with PList _ => true | _ => false end.

(** An optional attribute of the event as the value Python holds. *)
Definition of_merge (o : option MergeType) : pyval :=
  match o with Some m => PMerge m | None => PNone end.
Definition of_str (o : option string) : pyval :=
  match o with Some s => PStr s | None => PNone end.

(** What [str()] and an f-string write for a value: the same for [None], a
    [bool], an [int] and a [str]; for the other values, what Python gives, a
    parameter of the model. *)
Record rendering := {
  str_other : pyval -> string;
  format_other : pyval -> string
}.

Definition render (other : pyval -> string) (v : pyval) : string :=
  match v with
  | PStr s => s
  | PInt z => Z_str z
  | PBool true => "True"
  | PBool false => "False"
  | PNone => "None"
  | _ => other v
  end.

(** ** Exceptions *)

Inductive exn := AssertionError | KeyError | AttributeError | TypeError | SourceError.

Inductive result (A : Type) :=
| Ok (a : A)
| Raise (e : exn).
Arguments Ok {A} a.
Arguments Raise {A} e.

Definition bind {A B} (r : result A) (k : A -> result B) : result B :=
  match r with
  | Ok a => k a
  | Raise e => Raise e
  end.

Notation "x <- r ;; k" := (bind r (fun x => k))
  (at level 61, r at next level, right associativity).

(** [v.value]: the members of the two enums have one, no other value has. *)
Definition value_of (v : pyval) : result string :=
  match v with
  | PMerge m => Ok (MergeType_value m)
  | PKind t => Ok (EventType_value t)
  | _ => Raise AttributeError
  end.

(** ** [json.dumps] with its default settings *)

Definition hex_digit (n : nat) : string :=
  String (ascii_of_nat (if Nat.ltb n 10 then 48 + n else 87 + n)) EmptyString.

(** One character of a JSON string with [ensure_ascii]: the quote and the
    backslash are escaped, the control characters with a short form take it, and
    everything else outside space..tilde is written [\u00xx]. *)
Definition json_escape (c : ascii) : string :=
  let n := nat_of_ascii c in
  if Nat.eqb n 34 then "\" ++ dquote
  else if Nat.eqb n 92 then "\\"
  else if Nat.eqb n 10 then "\n"
  else if Nat.eqb n 13 then "\r"
  else if Nat.eqb n 9 then "\t"
  else if Nat.eqb n 8 then "\b"
  else if Nat.eqb n 12 then "\f"
  else if Nat.leb 32 n && Nat.leb n 126 then String c EmptyString
  else "\u00" ++ hex_digit (Nat.div n 16) ++ hex_digit (Nat.modulo n 16).

Fixpoint json_escape_all (s : string) : string :=
  match s with
  | EmptyString => EmptyString
  | String c s' => json_escape c ++ json_escape_all s'
  end.

Definition json_string (s : string) : string :=
  dquote ++ json_escape_all s ++ dquote.

Fixpoint json_dumps (v : pyval) : string :=
  match v with
  | PNone => "null"
  | PBool true => "true"
  | PBool false => "false"
  | PInt z => Z_str z
  | PStr s => json_string s
  | PMerge m => json_string (MergeType_value m)
  | PKind t => json_string (EventType_value t)
  | PList l => "[" ++ join ", " (map json_dumps l) ++ "]"
  | PDict d =>
      "{" ++ join ", " (map (fun kv => match kv with
                                      | (k, x) => json_string k ++ ": " ++ json_dumps x
                                      end) d) ++ "}"
  end.

(** Induction over a value and the values inside it. *)
Section pyval_induction.
Variable P : pyval -> Prop.
Hypothesis HNone : P PNone.
Hypothesis HBool : forall b, P (PBool b).
Hypothesis HInt : forall z, P (PInt z).
Hypothesis HStr : forall s, P (PStr s).
Hypothesis HMerge : forall m, P (PMerge m).
Hypothesis HKind : forall t, P (PKind t).
Hypothesis HList : forall l, Forall P l -> P (PList l).
Hypothesis HDict : forall d, Forall (fun kv => P (snd kv)) d -> P (PDict d).

End pyval_induction.

(** ** Reading JSON back *)



















(** ** The event *)

(** The dataclass [DatastarEvent]: the content is any value (the constructor
    checks it), the defaults are as annotated. *)
Record DatastarEvent := {
  content : pyval;
  merge : option MergeType;
  selector : option string;
  settle_duration : option Z;
  use_view_transitions : option bool;
  redirect : option string;
  error : option string;
  event_type : EventType
}.

(** [__post_init__]: the content is a list, a string or a dict. *)
Definition __post_init__ (self : DatastarEvent) : result unit :=
  if is_list (content self) || is_str (content self) || is_dict (content self)
  then Ok tt else Raise AssertionError.

(** [DatastarEvent(content=..., ...)]: the record, once [__post_init__] passed. *)
Definition DatastarEvent_init (c : pyval) (m : option MergeType) (sel : option string)
    (settle : option Z) (vt : option bool) (red err : option string) (t : EventType)
  : result DatastarEvent :=
  let self := {| content := c; merge := m; selector := sel; settle_duration := settle;
                 use_view_transitions := vt; redirect := red; error := err;
                 event_type := t |} in
  _ <- __post_init__ self ;; Ok self.

(** [DatastarEvent.create_fragment] with its keyword arguments, and
    [DatastarEvent.create_signal]. *)
Definition create_fragment (c : pyval) (m : option MergeType) (sel : option string)
    (settle : option Z) (vt : option bool) (red err : option string) : result DatastarEvent :=
  DatastarEvent_init c m sel settle vt red err FRAGMENT.

Definition create_signal (data : pyval) : result DatastarEvent :=
  DatastarEvent_init data None None None None None None SIGNAL.

(** ** The vocabulary of the properties *)

(** The order in which [_format_fragment_sse] lists its data lines, and the
    order the specification gives. *)
Definition code_order : list string :=
  ["merge"; "selector"; "settle"; "vt"; "redirect"; "error"; "fragment"].
Definition spec_order : list string :=
  ["selector"; "merge"; "settle"; "vt"; "redirect"; "error"; "fragment"].

(** Some line of [lines] is the data line of field [name]. *)
Definition has_line (name : string) (lines : list string) : bool :=
  existsb (fun l => String.eqb (field_name l) name) lines.

(** An optional line, when there, is the data line of field [name]. *)
Definition named (name : string) (o : option string) : Prop :=
  match o with
  | Some l => field_name l = name
  | None => True
  end.

Definition opt_named (name : string) (o : option string) : bool :=
  match o with
  | Some l => String.eqb (field_name l) name
  | None => false
  end.

(** Values of the annotated types. *)
Definition is_member (v : pyval) : bool := match v with PMerge _ => true | _ => false end.
Definition is_text (v : pyval) : bool := match v with PStr _ => true | _ => false end.
Definition is_int (v : pyval) : bool := match v with PInt _ => true | _ => false end.
Definition is_bool (v : pyval) : bool := match v with PBool _ => true | _ => false end.
Definition optional (p : pyval -> bool) (v : pyval) : bool :=
  match v with PNone => true | _ => p v end.

(** A dict that is a [FragmentConfig]: every key of the TypedDict that it has
    holds a value of the annotated type ([total=False]: no key is required). *)
Definition FragmentConfig_typed (d : pydict) : bool :=
  match dict_lookup "fragment" d with Some v => is_text v | None => true end
  && optional is_member (dict_get "merge" d)
  && optional is_text (dict_get "selector" d)
  && optional is_int (dict_get "settle_duration" d)
  && optional is_bool (dict_get "use_view_transitions" d)
  && optional is_text (dict_get "redirect" d)
  && optional is_text (dict_get "error" d).

(** A fragment item with a fragment text: a string, or a [FragmentConfig] that
    has its ['fragment']. *)
Definition fragment_item (v : pyval) : bool :=
  match v with
  | PStr _ => true
  | PDict d => FragmentConfig_typed d && is_text (dict_get "fragment" d)
  | _ => false
  end.

(** The fragment text, the merge and the selector an item gives. *)
Definition item_text (v : pyval) : string :=
  match v with
  | PStr s => s
  | PDict d => match dict_get "fragment" d with PStr s => s | _ => "" end
  | _ => ""
  end.

Definition item_merge (v : pyval) : option MergeType :=
  match v with
  | PDict d => match dict_get "merge" d with PMerge m => Some m | _ => None end
  | _ => None
  end.

Definition item_selector (v : pyval) : option string :=
  match v with
  | PDict d => match dict_get "selector" d with PStr s => Some s | _ => None end
  | _ => None
  end.

(** The specification's [a ?? b]: [a] when it is present, else [b]. *)
Definition coalesce {A} (a b : option A) : option A :=
  match a with
  | Some x => Some x
  | None => b
  end.

(** What the code does for a selector: an empty string counts as absent. *)
Definition nonempty (o : option string) : option string :=
  match o with
  | Some s => if String.eqb s "" then None else Some s
  | None => None
  end.

Definition is_set {A} (o : option A) : bool :=
  match o with Some _ => true | None => false end.

(** Whether an optional attribute of the event makes its line. *)
Definition settle_set (self : DatastarEvent) : bool :=
  match settle_duration self with Some z => negb (z =? 0) | None => false end.
Definition vt_set (self : DatastarEvent) : bool :=
  match use_view_transitions self with Some _ => true | None => false end.
Definition text_set (o : option string) : bool :=
  match o with Some s => negb (String.eqb s "") | None => false end.

(** The content shapes the specification allows for a kind: for a fragment event
    a string, a mapping with a ['fragment'], or a list of these; for a signal
    event a string or a mapping. *)
Definition spec_item (v : pyval) : bool :=
  match v with
  | PStr _ => true
  | PDict d => match dict_lookup "fragment" d with Some _ => true | None => false end
  | _ => false
  end.

Definition spec_shape (t : EventType) (c : pyval) : bool :=
  match t with
  | FRAGMENT => spec_item c || match c with PList l => forallb spec_item l | _ => false end
  | SIGNAL => match c with PStr _ | PDict _ => true | _ => false end
  end.

(** ** The state of the loops *)

(** What [await anext(generator)] gives while the source is not exhausted: a
    payload, or an exception of the source. *)
Inductive pull :=
| Yielded (v : pyval)
| Failed (e : exn).

(** What a loop does that its consumer or its operator can see. *)
Inductive effect :=
| Emit (block : string)
| Sleep (d : Z)
| Print (e : exn).

Definition is_Emit (x : effect) : bool := match x with Emit _ => true | _ => false end.
Definition is_Sleep (x : effect) : bool := match x with Sleep _ => true | _ => false end.

(** The blocks among some effects, in order. *)
Fixpoint emitted (l : list effect) : list string :=
  match l with
  | [] => []
  | Emit b :: l' => b :: emitted l'
  | _ :: l' => emitted l'
  end.

(** [DatastarStreamer]: [condition_callable] answers by the number of the
    iteration that calls it; times are in ticks of the loop's clock. *)
Record DatastarStreamer := {
  condition_callable : nat -> bool;
  interval : Z;
  sleep_interval : Z
}.

(** The variables of [DatastarStreamer.stream]: the source, as what its next
    pulls give before it is exhausted, and the last recorded time. *)
Record loop_state := {
  generator : list pull;
  last_yield_time : Z
}.

Inductive control :=
| Continue (st : loop_state)
| Break.

(** ** Sample inputs *)

(** A stand-in for Python's rendering of composite values, for inputs that
    hold none. *)
Definition no_repr : rendering :=
  {| str_other := fun _ => ""; format_other := fun _ => "" |}.

Definition plain_event : DatastarEvent :=
  {| content := PStr "x"; merge := None; selector := None; settle_duration := None;
     use_view_transitions := None; redirect := None; error := None;
     event_type := FRAGMENT |}.

Definition full_event : DatastarEvent :=
  {| content := PStr "x"; merge := Some INNER; selector := Some "#a";
     settle_duration := Some 300; use_view_transitions := Some false;
     redirect := Some "/next"; error := Some "oops"; event_type := FRAGMENT |}.

Definition zero_settle_event : DatastarEvent :=
  {| content := PStr "x"; merge := None; selector := None; settle_duration := Some 0;
     use_view_transitions := None; redirect := None; error := None;
     event_type := FRAGMENT |}.



(** An item with a merge and a selector, one with an empty fragment, one with
    an empty selector, and one without its fragment. *)
Definition both_item : pyval :=
  PDict [("fragment", PStr "x"); ("merge", PMerge PREPEND); ("selector", PStr "#feeds")].
Definition empty_item : pyval := PDict [("fragment", PStr "")].
Definition no_fragment_item : pyval := PDict [("selector", PStr "#feeds")].

(** A streamer whose gate is always true, and a clock that reads 5000 at the
    first iteration and one tick more at each next one. *)
Definition open_streamer : DatastarStreamer :=
  {| condition_callable := fun _ => true; interval := 1000; sleep_interval := 100 |}.
Definition fast_clock (i : nat) : Z := 5000 + Z.of_nat i.

(** ** The inline classes of [main_1.py] *)

(** [main_1.py] carries its own, older [DatastarEvent], [DatastarSignal] and
    [DataStarStreamer]; they are modelled here under their own names. *)
Module Main1.

(** [str.lower()], for code points below 256. *)
Definition lower_char (c : ascii) : ascii :=
  let n := nat_of_ascii c in
  if (Nat.leb 65 n && Nat.leb n 90)
     || (Nat.leb 192 n && Nat.leb n 222 && negb (Nat.eqb n 215))
  then ascii_of_nat (n + 32) else c.

Fixpoint lower (s : string) : string :=
  match s with
  | EmptyString => EmptyString
  | String c s' => String (lower_char c) (lower s')
  end.

(** The attributes [DatastarEvent.__init__] sets. *)
Record DatastarEvent := {
  data : string;
  event : string
}.

(** The list [data_lines] that [__init__] builds from its arguments. *)
Definition data_lines (python : rendering)
    (fragment merge query_selector settle_duration use_view_transitions : pyval)
  : result (list string) :=
  let selector_part :=
    if truthy query_selector
    then ["selector " ++ render (format_other python) query_selector] else [] in
  merge_part <- (if truthy merge
                 then token <- value_of merge ;; Ok ["merge " ++ token]
                 else Ok []) ;;
  let settle_part :=
    if truthy settle_duration
    then ["settle " ++ render (format_other python) settle_duration] else [] in
  let vt_part :=
    match use_view_transitions with
    | PNone => []
    | v => ["vt " ++ lower (render (str_other python) v)]
    end in
  let fragment_part := ["fragment " ++ render (format_other python) fragment] in
  Ok (selector_part ++ merge_part ++ settle_part ++ vt_part ++ fragment_part)%list.

Definition __init__ (python : rendering)
    (fragment merge query_selector settle_duration use_view_transitions : pyval)
  : result DatastarEvent :=
  lines <- data_lines python fragment merge query_selector settle_duration
             use_view_transitions ;;
  Ok {| data := join (nl ++ "data: ") lines; event := "datastar-fragment" |}.

Definition format_sse (self : DatastarEvent) : string :=
  "event: " ++ event self ++ nl ++ "data: " ++ data self ++ nl ++ nl.

(** [DatastarSignal(store).format_sse()]. *)
Definition DatastarSignal_format_sse (store : pyval) : string :=
  "event: " ++ "datastar-signal" ++ nl ++ "data: " ++ json_dumps store ++ nl ++ nl.

(** [DatastarEvent] called with the mapping unpacked as keyword arguments: the
    argument must be a mapping whose keys are parameters of [__init__] and that
    has the required ['fragment']. *)
Definition parameters : list string :=
  ["fragment"; "merge"; "query_selector"; "settle_duration"; "use_view_transitions"].

Definition call_with (python : rendering) (fragment : pyval) : result DatastarEvent :=
  match fragment with
  | PDict d =>
      if forallb (fun kv => existsb (String.eqb (fst kv)) parameters) d then
        match dict_lookup "fragment" d with
        | Some f =>
            __init__ python f (dict_get "merge" d) (dict_get "query_selector" d)
              (dict_get "settle_duration" d) (dict_get "use_view_transitions" d)
        | None => Raise TypeError
        end
      else Raise TypeError
  | _ => Raise TypeError
  end.

(** [DataStarStreamer]: the gate answers by the number of the iteration. *)
Record DataStarStreamer := {
  condition_callable : nat -> bool;
  interval : Z
}.

(** How the loop stands after an iteration: going on, [fragment_generator]
    having been called [calls] times, or ended by an exception. *)
Inductive outcome :=
| Going (calls : nat)
| Raised (e : exn).

(** One pass of the body of [while True]; [fragment_generator k] is what the
    call number [k] of the coroutine function gives. *)
Definition iteration (python : rendering) (self : DataStarStreamer)
    (fragment_generator : nat -> pull) (i calls : nat) : list effect * outcome :=
  if condition_callable self i then
    match fragment_generator calls with
    | Failed e => ([], Raised e)
    | Yielded fragment =>
        if truthy fragment then
          match call_with python fragment with
          | Raise e => ([], Raised e)
          | Ok ev => ([Emit (format_sse ev); Sleep (interval self)], Going (S calls))
          end
        else ([Sleep (interval self)], Going (S calls))
    end
  else ([Sleep (interval self)], Going calls).

(** [n] iterations from iteration [i] on, unless an exception ends the loop. *)
Fixpoint iterate (python : rendering) (self : DataStarStreamer)
    (fragment_generator : nat -> pull) (n i calls : nat)
  : list (list effect) * outcome :=
  match n with
  | O => ([], Going calls)
  | S n' =>
      match iteration python self fragment_generator i calls with
      | (effs, Raised e) => ([effs], Raised e)
      | (effs, Going calls') =>
          let '(tr, out) := iterate python self fragment_generator n' (S i) calls' in
          (effs :: tr, out)
      end
  end.

Definition stream (python : rendering) (self : DataStarStreamer)
    (fragment_generator : nat -> pull) (n : nat) : list (list effect) * outcome :=
  iterate python self fragment_generator n 0%nat 0%nat.

(** An iteration that went through: it slept once, for [pause], after at most
    one block. *)
Definition slept (pause : Z) (effs : list effect) : Prop :=
  effs = [Sleep pause] \/ exists block, effs = [Emit block; Sleep pause].

End Main1.

(** Optional arguments as the values Python holds. *)
Definition of_int (o : option Z) : pyval :=
  match o with Some z => PInt z | None => PNone end.
Definition of_bool (o : option bool) : pyval :=
  match o with Some b => PBool b | None => PNone end.

(** ** The feed routes of [main_2.py] *)

(** The fragment text both generators build from the counter and the time. *)
Definition feed_text (i : Z) (current_time : string) : string :=
  "<div id=" ++ dquote ++ "feed" ++ dquote ++ ">" ++ Z_str i ++ " - " ++ current_time
  ++ "</div>".

(** What [data_generator] of [/feed] and of [/feed_alt] yields. *)
Definition feed_payload (i : Z) (current_time : string) : pyval :=
  PDict [("fragment", PStr (feed_text i current_time)); ("merge", PMerge PREPEND);
         ("selector", PStr "#feeds"); ("use_view_transitions", PBool false)].

Definition feed_alt_payload (i : Z) (current_time : string) : pyval :=
  PDict [("fragment", PStr (feed_text i current_time)); ("merge", PMerge PREPEND);
         ("selector", PStr "#feeds")].

(** ** More sample inputs *)

(** A fragment event over a list whose second item has no fragment, and one
    over a list of three fragment items. *)
Definition broken_list_event : DatastarEvent :=
  {| content := PList [PStr "a"; no_fragment_item; PStr "b"]; merge := None;
     selector := None; settle_duration := None; use_view_transitions := None;
     redirect := None; error := None; event_type := FRAGMENT |}.

Definition list_event : DatastarEvent :=
  {| content := PList [both_item; PStr "x"; empty_item]; merge := None;
     selector := None; settle_duration := None; use_view_transitions := None;
     redirect := None; error := None; event_type := FRAGMENT |}.

(** An item whose merge is the token as a plain string. *)
Definition string_merge_item : pydict :=
  [("fragment", PStr "x"); ("merge", PStr "morph_element")].
Definition kind_merge_item : pydict :=
  [("fragment", PStr "x"); ("merge", PKind SIGNAL)].

(** A clock that reads 5000 at the first iteration and 600 more at each next
    one, and a streamer whose gate is always false. *)
Definition slow_clock (i : nat) : Z := 5000 + 600 * Z.of_nat i.
Definition shut_streamer : DatastarStreamer :=
  {| condition_callable := fun _ => false; interval := 1000; sleep_interval := 100 |}.

Section Datastar.

(** Python's rendering of a list, a dict or an enum member.  The repository
    does not fix it (the last depends on the Python version), and it is only
    reached by a value outside the annotated types. *)
Variable python : rendering.

(** [str(v)], and what an f-string writes for [{v}]. *)
Definition py_str (v : pyval) : string := render (str_other python) v.
Definition py_format (v : pyval) : string := render (format_other python) v.

(** [merge] and [selector] as [_format_fragment_sse] resolves them for an item. *)
Definition resolved_merge (self : DatastarEvent) (fragment : pyval) : pyval :=
  match fragment with
  | PDict d => py_or (dict_get "merge" d) (of_merge (merge self))
  | _ => of_merge (merge self)
  end.

Definition resolved_selector (self : DatastarEvent) (fragment : pyval) : pyval :=
  match fragment with
  | PDict d => py_or (dict_get "selector" d) (of_str (selector self))
  | _ => of_str (selector self)
  end.

(** [frag]: the item's ['fragment'] entry ([KeyError] without one), or the item. *)
Definition resolved_frag (fragment : pyval) : result pyval :=
  match fragment with
  | PDict d => match dict_lookup "fragment" d with
               | Some v => Ok v
               | None => Raise KeyError
               end
  | _ => Ok fragment
  end.

(** [f"merge {merge.value}" if merge else None]. *)
Definition merge_line (m : pyval) : result (option string) :=
  if truthy m then token <- value_of m ;; Ok (Some ("merge " ++ token))
  else Ok None.

Definition selector_line (s : pyval) : option string :=
  if truthy s then Some ("selector " ++ py_format s) else None.

Definition settle_line (self : DatastarEvent) : option string :=
  match settle_duration self with
  | Some z => if z =? 0 then None else Some ("settle " ++ Z_str z)
  | None => None
  end.

Definition vt_line (self : DatastarEvent) : option string :=
  match use_view_transitions self with
  | Some true => Some "vt true"
  | Some false => Some "vt false"
  | None => None
  end.

Definition text_line (name : string) (o : option string) : option string :=
  match o with
  | Some s => if String.eqb s "" then None else Some (name ++ " " ++ s)
  | None => None
  end.

(** [line for line in data_lines if line is not None]. *)
Fixpoint not_None (l : list (option string)) : list string :=
  match l with
  | [] => []
  | Some s :: l' => s :: not_None l'
  | None :: l' => not_None l'
  end.

(** The list [data_lines] of [_format_fragment_sse], without its [None]s. *)
Definition fragment_data_lines (self : DatastarEvent) (fragment : pyval)
  : result (list string) :=
  frag <- resolved_frag fragment ;;
  ml <- merge_line (resolved_merge self fragment) ;;
  Ok (not_None [ ml;
                 selector_line (resolved_selector self fragment);
                 settle_line self;
                 vt_line self;
                 text_line "redirect" (redirect self);
                 text_line "error" (error self);
                 Some ("fragment " ++ py_format frag) ]).

(** ['\n'.join(f"data: {line}" for line in ...)]. *)
Definition data_block (lines : list string) : string :=
  join nl (map (fun line => "data: " ++ line) lines).

Definition _format_fragment_sse (self : DatastarEvent) (fragment : pyval) : result string :=
  lines <- fragment_data_lines self fragment ;; Ok (data_block lines).

Definition _format_signal_sse (data : pyval) : string :=
  "data: " ++ (if is_dict data then json_dumps data else py_str data).

Definition EventType_eqb (a b : EventType) : bool :=
  match a, b with
  | FRAGMENT, FRAGMENT | SIGNAL, SIGNAL => true
  | _, _ => false
  end.

(** The block around the data of an event of the given type. *)
Definition sse_block (t : EventType) (data : string) : string :=
  "event: " ++ EventType_value t ++ nl ++ data ++ nl ++ nl.

Definition format_sse (self : DatastarEvent) (fragment : pyval) : result string :=
  data <- (if EventType_eqb (event_type self) FRAGMENT
           then _format_fragment_sse self fragment
           else Ok (_format_signal_sse fragment)) ;;
  Ok (sse_block (event_type self) data).

(** A generator that has run to its end: the values it yielded, and the
    exception that ended it, if one did. *)
Definition generated (A : Type) : Type := (list A * option exn)%type.

(** [for item in items: yield format_sse(item)]. *)
Fixpoint yield_each (self : DatastarEvent) (items : list pyval) : generated string :=
  match items with
  | [] => ([], None)
  | item :: rest =>
      match format_sse self item with
      | Ok block => let '(blocks, e) := yield_each self rest in (block :: blocks, e)
      | Raise e => ([], Some e)
      end
  end.

(** [__aiter__], which [stream()] returns. *)
Definition __aiter__ (self : DatastarEvent) : generated string :=
  if is_str (content self) || is_dict (content self)
  then yield_each self [content self]
  else match content self with
       | PList items => yield_each self items
       | _ => ([], Some TypeError)
       end.

Definition DatastarEvent_stream (self : DatastarEvent) : generated string := __aiter__ self.

(** ** The streaming loops *)

(** One pass of the body of [while True], iteration [i], the clock reading
    [current_time]. *)
Definition iteration (self : DatastarStreamer) (i : nat) (current_time : Z)
    (st : loop_state) : list effect * control :=
  if (current_time - last_yield_time st >=? interval self) && condition_callable self i then
    match generator st with
    | [] => ([], Break)
    | Failed e :: g =>
        ([Print e], Continue {| generator := g; last_yield_time := last_yield_time st |})
    | Yielded fragment :: g =>
        match DatastarEvent_init fragment None None None None None None FRAGMENT with
        | Raise e =>
            ([Print e], Continue {| generator := g; last_yield_time := last_yield_time st |})
        | Ok event =>
            match DatastarEvent_stream event with
            | (blocks, Some e) =>
                ((map Emit blocks ++ [Print e])%list,
                 Continue {| generator := g; last_yield_time := last_yield_time st |})
            | (blocks, None) =>
                ((map Emit blocks ++ [Sleep (sleep_interval self)])%list,
                 Continue {| generator := g; last_yield_time := current_time |})
            end
        end
    end
  else ([Sleep (sleep_interval self)], Continue st).

(** [n] iterations from iteration [i] on, unless the loop breaks first: each
    iteration's clock reading with its effects, and how the run stands. *)
Fixpoint iterate (self : DatastarStreamer) (clock : nat -> Z) (n i : nat)
    (st : loop_state) : list (Z * list effect) * control :=
  match n with
  | O => ([], Continue st)
  | S n' =>
      match iteration self i (clock i) st with
      | (effs, Break) => ([(clock i, effs)], Break)
      | (effs, Continue st') =>
          let '(tr, c) := iterate self clock n' (S i) st' in ((clock i, effs) :: tr, c)
      end
  end.

(** [DatastarStreamer.stream], observed for [n] iterations. *)
Definition DatastarStreamer_stream (self : DatastarStreamer) (fragment_generator : list pull)
    (clock : nat -> Z) (n : nat) : list (Z * list effect) * control :=
  iterate self clock n 0%nat {| generator := fragment_generator; last_yield_time := 0 |}.

(** [create_sse_stream]: the generator it returns, run over a source. *)
Fixpoint create_sse_stream (data_generator : list pull) (merge : option MergeType)
    (selector : option string) (settle_duration : option Z)
    (use_view_transitions : option bool) (event_type : EventType) (interval : Z)
  : list effect * option exn :=
  match data_generator with
  | [] => ([], None)
  | Failed e :: _ => ([], Some e)
  | Yielded data :: rest =>
      match DatastarEvent_init data merge selector settle_duration use_view_transitions
              None None event_type with
      | Raise e => ([], Some e)
      | Ok event =>
          match DatastarEvent_stream event with
          | (blocks, Some e) => (map Emit blocks, Some e)
          | (blocks, None) =>
              let '(effs, r) := create_sse_stream rest merge selector settle_duration
                                  use_view_transitions event_type interval in
              ((map Emit blocks ++ Sleep interval :: effs)%list, r)
          end
      end
  end.

(** An iteration that emitted blocks and reached its sleep. *)
Definition completes (effs : list effect) : bool :=
  match emitted effs with
  | [] => false
  | _ => existsb is_Sleep effs
  end.

(** Every iteration of the trace that emits does so at least [iv] after the
    previous iteration that emitted and completed, [prev] being the time of the
    one before the trace, if any. *)
Fixpoint spaced (iv : Z) (prev : option Z) (tr : list (Z * list effect)) : Prop :=
  match tr with
  | [] => True
  | (t, effs) :: tr' =>
      (emitted effs <> [] -> match prev with Some p => iv <= t - p | None => True end)
      /\ spaced iv (if completes effs then Some t else prev) tr'
  end.

(** The blocks of the event that [create_sse_stream] builds from a payload, when
    the event is built and encoded without an exception. *)
Definition event_blocks (data : pyval) (merge : option MergeType) (selector : option string)
    (settle_duration : option Z) (use_view_transitions : option bool)
    (event_type : EventType) : result (list string) :=
  event <- DatastarEvent_init data merge selector settle_duration use_view_transitions
             None None event_type ;;
  match DatastarEvent_stream event with
  | (blocks, None) => Ok blocks
  | (_, Some e) => Raise e
  end.

(** The event the gated loop builds from a payload: no default, a fragment
    event. *)
Definition streamer_event (v : pyval) : DatastarEvent :=
  {| content := v; merge := None; selector := None; settle_duration := None;
     use_view_transitions := None; redirect := None; error := None;
     event_type := FRAGMENT |}.

(** The items [__aiter__] encodes for a content: the content itself when it is
    a string or a dict, its elements when it is a list. *)
Definition content_items (v : pyval) : list pyval :=
  if is_str v || is_dict v then [v]
  else match v with
       | PList items => items
       | _ => []
       end.

(** [item.get(k)] for an item that is a mapping, [None] for any other item. *)
Definition item_get (k : string) (item : pyval) : pyval :=
  match item with
  | PDict d => dict_get k d
  | _ => PNone
  end.

(** The data lines built from an item alone: its merge line [ml], its selector
    line, and the fragment line of [frag]. *)
Definition streamer_lines (ml : option string) (item frag : pyval) : list string :=
  not_None [ml; selector_line (item_get "selector" item);
            Some ("fragment " ++ py_format frag)].

(** A block that the gated loop emits for the payload [v]: the block of a
    fragment event that the encoder builds for one item of the payload, out of
    the item's merge, selector and fragment and nothing else. *)
Definition streamer_block (v : pyval) (b : string) : Prop :=
  String.prefix "event: datastar-fragment" b = true
  /\ exists item frag ml,
       In item (content_items v)
       /\ resolved_frag item = Ok frag
       /\ merge_line (item_get "merge" item) = Ok ml
       /\ fragment_data_lines (streamer_event v) item = Ok (streamer_lines ml item frag)
       /\ b = "event: datastar-fragment" ++ nl
              ++ data_block (streamer_lines ml item frag) ++ nl ++ nl
       /\ (forall name, In name ["settle"; "vt"; "redirect"; "error"] ->
                        has_line name (streamer_lines ml item frag) = false)
       /\ (Forall (fun l => contains_char newline l = false) (streamer_lines ml item frag) ->
           wire_data_lines b = streamer_lines ml item frag).

(** The blocks that the gated loop emits for one pull of its source: those of
    the payload's event up to its first failure, none when the pull or the
    constructor raises. *)
Definition pull_blocks (p : pull) : list string :=
  match p with
  | Failed _ => []
  | Yielded v =>
      match DatastarEvent_init v None None None None None None FRAGMENT with
      | Ok event => fst (DatastarEvent_stream event)
      | Raise _ => []
      end
  end.

(** All the blocks of a trace, in order. *)
Definition trace_blocks (tr : list (Z * list effect)) : list string :=
  List.concat (map (fun tick => emitted (snd tick)) tr).

(** The text of an optional string, empty when there is none. *)
Definition opt_text (o : option string) : string :=
  match o with Some s => s | None => "" end.

(** ** The lines of a block's text *)

Lemma append_assoc (a b c : string) : (a ++ b) ++ c = a ++ b ++ c.
Proof. induction a as [|x a IH]; simpl; congruence. Qed.

Lemma contains_char_app (c : ascii) (a b : string) :
  contains_char c (a ++ b) = contains_char c a || contains_char c b.
Proof.
  induction a as [|x a IH]; simpl; auto. rewrite IH. apply orb_assoc.
Qed.

Lemma text_lines_line (a b : string) :
  contains_char newline a = false ->
  text_lines (a ++ nl ++ b) = a :: text_lines b.
Proof.
  induction a as [|c a IH]; intros H.
  - reflexivity.
  - simpl in H. apply orb_false_elim in H. destruct H as [Hc Ha].
    cbn [append text_lines]. rewrite Hc. cbn [append] in IH. rewrite (IH Ha). reflexivity.
Qed.

Lemma text_lines_join (l : list string) (b : string) :
  l <> [] ->
  Forall (fun x => contains_char newline x = false) l ->
  text_lines (join nl l ++ nl ++ b) = (l ++ text_lines b)%list.
Proof.
  intros Hne H. induction H as [|x l Hx Hl IH]; [contradiction|].
  destruct l as [|y l].
  - simpl. apply text_lines_line. exact Hx.
  - change (join nl (x :: y :: l)) with (x ++ nl ++ join nl (y :: l)).
    rewrite !append_assoc. rewrite (text_lines_line x _ Hx).
    rewrite IH by discriminate. reflexivity.
Qed.

(** The text of a block of newline-free data lines splits into the event line,
    one line per data line, and the two empty pieces around the final line
    feeds. *)
Lemma block_text_lines (t : EventType) (lines : list string) :
  lines <> [] ->
  Forall (fun l => contains_char newline l = false) lines ->
  text_lines (sse_block t (data_block lines))
  = ("event: " ++ EventType_value t) :: (map (append "data: ") lines ++ [""; ""])%list.
Proof.
  intros Hne H. unfold sse_block, data_block.
  rewrite <- (append_assoc "event: " (EventType_value t)).
  rewrite text_lines_line by (destruct t; reflexivity).
  f_equal. apply text_lines_join.
  - destruct lines; [contradiction|discriminate].
  - clear Hne. induction H; simpl; constructor; auto.
Qed.

(** ** The fragment encoder *)

Lemma merge_line_named (m : pyval) (o : option string) :
  merge_line m = Ok o -> named "merge" o.
Proof.
  unfold merge_line. destruct (truthy m).
  - destruct m; intros H; inversion H; subst; reflexivity.
  - intros H; inversion H; exact I.
Qed.

Lemma selector_line_named (s : pyval) : named "selector" (selector_line s).
Proof. unfold selector_line. destruct (truthy s); simpl; auto. Qed.

Lemma settle_line_named (self : DatastarEvent) : named "settle" (settle_line self).
Proof.
  unfold settle_line. destruct (settle_duration self) as [z|]; simpl; auto.
  destruct (z =? 0); simpl; auto.
Qed.

Lemma vt_line_named (self : DatastarEvent) : named "vt" (vt_line self).
Proof. unfold vt_line. destruct (use_view_transitions self) as [[|]|]; simpl; auto. Qed.

Lemma redirect_line_named (o : option string) : named "redirect" (text_line "redirect" o).
Proof. destruct o as [s|]; simpl; auto. destruct (String.eqb s ""); simpl; auto. Qed.

Lemma error_line_named (o : option string) : named "error" (text_line "error" o).
Proof. destruct o as [s|]; simpl; auto. destruct (String.eqb s ""); simpl; auto. Qed.

Ltac name_lines :=
  repeat match goal with
         | H : field_name _ = _ |- _ => rewrite H; clear H
         | H : True |- _ => clear H
         end.

(** Six optional lines, each of its own field, and the fragment line after them
    come out in [code_order], the fragment line last. *)
Lemma lines_in_code_order (o1 o2 o3 o4 o5 o6 : option string) (f : string) :
  named "merge" o1 -> named "selector" o2 -> named "settle" o3 ->
  named "vt" o4 -> named "redirect" o5 -> named "error" o6 ->
  let lines := not_None [o1; o2; o3; o4; o5; o6; Some ("fragment " ++ f)] in
  in_order code_order (map field_name lines) = true
  /\ last lines "" = "fragment " ++ f.
Proof.
  destruct o1, o2, o3, o4, o5, o6; simpl; intros; name_lines; split; reflexivity.
Qed.

(** A fragment item with a fragment text is encoded. *)
Lemma fragment_item_lines (self : DatastarEvent) (item : pyval) :
  fragment_item item = true ->
  exists ml,
    merge_line (resolved_merge self item) = Ok ml
    /\ fragment_data_lines self item
       = Ok (not_None [ ml;
                        selector_line (resolved_selector self item);
                        settle_line self;
                        vt_line self;
                        text_line "redirect" (redirect self);
                        text_line "error" (error self);
                        Some ("fragment " ++ item_text item) ]).
Proof.
  intros Hitem.
  assert (Hm : exists ml, merge_line (resolved_merge self item) = Ok ml).
  { destruct item; simpl in Hitem; try discriminate Hitem; simpl.
    - destruct (merge self); unfold merge_line; simpl; eauto.
    - unfold FragmentConfig_typed in Hitem.
      repeat (apply andb_prop in Hitem; destruct Hitem as [Hitem ?]).
      unfold py_or, merge_line. destruct (dict_get "merge" d); try discriminate; simpl.
      + destruct (merge self); simpl; eauto.
      + eauto. }
  destruct Hm as [ml Hml]. exists ml. split; [exact Hml|].
  unfold fragment_data_lines. rewrite Hml.
  destruct item; simpl in Hitem; try discriminate Hitem; simpl; try reflexivity.
  apply andb_prop in Hitem. destruct Hitem as [_ Hf].
  unfold dict_get in *. destruct (dict_lookup "fragment" d) as [v|]; try discriminate.
  destruct v; try discriminate. reflexivity.
Qed.

(** C1, as amended: for every event and every fragment item (a string, or a
    FragmentConfig with its fragment), the item is encoded and its data lines
    come in the order merge, selector, settle, vt, redirect, error, fragment
    (each optional line at most once), the fragment line last. *)
Theorem fragment_lines_in_code_order (self : DatastarEvent) (item : pyval) :
  fragment_item item = true ->
  exists lines,
    fragment_data_lines self item = Ok lines
    /\ _format_fragment_sse self item = Ok (data_block lines)
    /\ in_order code_order (map field_name lines) = true
    /\ last lines "" = "fragment " ++ item_text item.
Proof.
  intros Hitem. destruct (fragment_item_lines self item Hitem) as (ml & Hml & Hlines).
  eexists. split; [exact Hlines|]. split.
  - unfold _format_fragment_sse. rewrite Hlines. reflexivity.
  - apply lines_in_code_order.
    + eapply merge_line_named; eauto.
    + apply selector_line_named.
    + apply settle_line_named.
    + apply vt_line_named.
    + apply redirect_line_named.
    + apply error_line_named.
Qed.

Lemma has_line_not_None (n : string) (opts : list (option string)) :
  has_line n (not_None opts) = existsb (opt_named n) opts.
Proof.
  unfold has_line. induction opts as [|[l|] opts IH]; simpl; auto.
  rewrite IH. reflexivity.
Qed.

Lemma In_not_None (x : string) (opts : list (option string)) :
  In (Some x) opts -> In x (not_None opts).
Proof.
  induction opts as [|[l|] opts IH]; simpl; auto.
  - intros [H|H]; [inversion H; auto | auto].
  - intros [H|H]; [discriminate | auto].
Qed.

Lemma opt_named_merge (n : string) (m : pyval) (ml : option string) :
  merge_line m = Ok ml -> opt_named n ml = truthy m && String.eqb "merge" n.
Proof.
  unfold merge_line. destruct (truthy m).
  - destruct m; intros H; inversion H; subst; reflexivity.
  - intros H; inversion H; reflexivity.
Qed.

Lemma opt_named_selector (n : string) (s : pyval) :
  opt_named n (selector_line s) = truthy s && String.eqb "selector" n.
Proof. unfold selector_line. destruct (truthy s); reflexivity. Qed.

Lemma opt_named_settle (n : string) (self : DatastarEvent) :
  opt_named n (settle_line self) = settle_set self && String.eqb "settle" n.
Proof.
  unfold settle_line, settle_set. destruct (settle_duration self) as [z|]; auto.
  destruct (z =? 0); reflexivity.
Qed.

Lemma opt_named_vt (n : string) (self : DatastarEvent) :
  opt_named n (vt_line self) = vt_set self && String.eqb "vt" n.
Proof.
  unfold vt_line, vt_set. destruct (use_view_transitions self) as [[|]|]; reflexivity.
Qed.

Lemma opt_named_redirect (n : string) (o : option string) :
  opt_named n (text_line "redirect" o) = text_set o && String.eqb "redirect" n.
Proof. destruct o as [s|]; simpl; auto. destruct (String.eqb s ""); reflexivity. Qed.

Lemma opt_named_error (n : string) (o : option string) :
  opt_named n (text_line "error" o) = text_set o && String.eqb "error" n.
Proof. destruct o as [s|]; simpl; auto. destruct (String.eqb s ""); reflexivity. Qed.

(** For an item of the annotated types, [or] takes the item's merge when it has
    one, and the item's selector when it has a non-empty one. *)
Lemma resolved_typed (self : DatastarEvent) (item : pyval) :
  fragment_item item = true ->
  resolved_merge self item = of_merge (coalesce (item_merge item) (merge self))
  /\ resolved_selector self item
     = of_str (coalesce (nonempty (item_selector item)) (selector self)).
Proof.
  destruct item; simpl; try discriminate; auto.
  unfold FragmentConfig_typed. intros H.
  repeat (apply andb_prop in H; destruct H as [H ?]).
  unfold py_or. split.
  - destruct (dict_get "merge" d); try discriminate; reflexivity.
  - destruct (dict_get "selector" d) as [| | |s| | | |]; try discriminate; simpl; auto.
    destruct (String.eqb s ""); reflexivity.
Qed.

Lemma truthy_of_merge (o : option MergeType) : truthy (of_merge o) = is_set o.
Proof. destruct o; reflexivity. Qed.

Lemma truthy_of_str (o : option string) : truthy (of_str o) = text_set o.
Proof. destruct o; reflexivity. Qed.

Ltac bool_cases :=
  repeat match goal with
         | |- context [truthy ?v] => destruct (truthy v)
         | |- context [is_set ?v] => destruct (is_set v)
         | |- context [settle_set ?v] => destruct (settle_set v)
         | |- context [vt_set ?v] => destruct (vt_set v)
         | |- context [text_set ?v] => destruct (text_set v)
         end.

(** C2, as amended: for every event and every fragment item with a fragment
    text, the item is encoded, and among its data lines the merge line is there
    iff the effective merge is set, the selector, redirect and error lines iff
    their effective value is a non-empty string, the settle line iff
    settle_duration is a non-zero integer, the vt line iff use_view_transitions
    is not None (False gives the line vt false); the fragment line is always
    there, also for an empty text. *)
Theorem optional_lines_iff_truthy (self : DatastarEvent) (item : pyval) :
  fragment_item item = true ->
  exists lines,
    fragment_data_lines self item = Ok lines
    /\ _format_fragment_sse self item = Ok (data_block lines)
    /\ has_line "merge" lines = is_set (coalesce (item_merge item) (merge self))
    /\ has_line "selector" lines
       = text_set (coalesce (nonempty (item_selector item)) (selector self))
    /\ has_line "settle" lines = settle_set self
    /\ has_line "vt" lines = vt_set self
    /\ has_line "redirect" lines = text_set (redirect self)
    /\ has_line "error" lines = text_set (error self)
    /\ (use_view_transitions self = Some false -> In "vt false" lines)
    /\ In ("fragment " ++ item_text item) lines.
Proof.
  intros Hitem. destruct (fragment_item_lines self item Hitem) as (ml & Hml & Hlines).
  destruct (resolved_typed self item Hitem) as [Hm Hs].
  eexists. split; [exact Hlines|]. split.
  { unfold _format_fragment_sse. rewrite Hlines. reflexivity. }
  rewrite <- truthy_of_merge, <- truthy_of_str, <- Hm, <- Hs.
  rewrite !has_line_not_None. cbn [existsb].
  rewrite !(opt_named_merge _ _ _ Hml), !opt_named_selector, !opt_named_settle,
    !opt_named_vt, !opt_named_redirect, !opt_named_error.
  cbn [opt_named field_name append Ascii.eqb String.eqb Bool.eqb].
  repeat split; try (bool_cases; reflexivity).
  - intros Hvt. apply In_not_None. unfold vt_line. rewrite Hvt. simpl. auto 10.
  - apply In_not_None. simpl. auto 10.
Qed.





(** ** Validation *)

Lemma yield_each_app (self : DatastarEvent) (before after : list pyval)
    (blocks : list string) :
  yield_each self before = (blocks, None) ->
  yield_each self (before ++ after)
  = (let '(more, e) := yield_each self after in ((blocks ++ more)%list, e)).
Proof.
  revert blocks. induction before as [|x before IH]; simpl; intros blocks H.
  - inversion H; subst. destruct (yield_each self after); reflexivity.
  - destruct (format_sse self x) as [b|e]; [|discriminate].
    destruct (yield_each self before) as [bs [e|]] eqn:E; inversion H; subst.
    rewrite (IH bs eq_refl). destruct (yield_each self after); reflexivity.
Qed.

Lemma missing_fragment_raises (self : DatastarEvent) (d : pydict) :
  event_type self = FRAGMENT ->
  dict_lookup "fragment" d = None ->
  format_sse self (PDict d) = Raise KeyError.
Proof.
  intros Ht Hd. unfold format_sse, _format_fragment_sse, fragment_data_lines.
  rewrite Ht. simpl. rewrite Hd. reflexivity.
Qed.

Lemma signal_items (self : DatastarEvent) (items : list pyval) :
  event_type self = SIGNAL ->
  yield_each self items
  = (map (fun x => sse_block SIGNAL (_format_signal_sse x)) items, None).
Proof.
  intros Ht. induction items as [|x items IH]; simpl; auto.
  unfold format_sse at 1. rewrite Ht. simpl. rewrite IH. reflexivity.
Qed.

(** C4, as amended: constructing an event raises AssertionError exactly when
    the content is not a list, a string or a dict, whatever the kind; a fragment
    event's mapping without a fragment key, as the content or as an item of the
    list, raises KeyError when it is encoded, which ends the iteration after the
    blocks of the items before it, with no block for the mapping; a list content
    of a signal event is accepted and encoded as one signal block per item. *)
Theorem content_validation :
  (forall c m sel st vt red err t,
      DatastarEvent_init c m sel st vt red err t
      = if is_list c || is_str c || is_dict c
        then Ok {| content := c; merge := m; selector := sel; settle_duration := st;
                   use_view_transitions := vt; redirect := red; error := err;
                   event_type := t |}
        else Raise AssertionError)
  /\ (forall self d,
        event_type self = FRAGMENT -> content self = PDict d ->
        dict_lookup "fragment" d = None ->
        DatastarEvent_stream self = ([], Some KeyError))
  /\ (forall self before d after blocks,
        event_type self = FRAGMENT -> content self = PList (before ++ PDict d :: after) ->
        dict_lookup "fragment" d = None ->
        yield_each self before = (blocks, None) ->
        DatastarEvent_stream self = (blocks, Some KeyError))
  /\ (forall self items,
        event_type self = SIGNAL -> content self = PList items ->
        DatastarEvent_stream self
        = (map (fun x => sse_block SIGNAL (_format_signal_sse x)) items, None)).
Proof.
  repeat split.
  - intros. unfold DatastarEvent_init, __post_init__. simpl.
    destruct (is_list c || is_str c || is_dict c); reflexivity.
  - intros self d Ht Hc Hd. unfold DatastarEvent_stream, __aiter__. rewrite Hc. simpl.
    rewrite (missing_fragment_raises self d Ht Hd). reflexivity.
  - intros self before d after blocks Ht Hc Hd Hb.
    unfold DatastarEvent_stream, __aiter__. rewrite Hc. simpl.
    rewrite (yield_each_app self before (PDict d :: after) blocks Hb). simpl.
    rewrite (missing_fragment_raises self d Ht Hd). rewrite app_nil_r. reflexivity.
  - intros self items Ht Hc. unfold DatastarEvent_stream, __aiter__. rewrite Hc. simpl.
    apply signal_items; assumption.
Qed.

(** ** Signals *)


Lemma uint_no_newline (d : Decimal.uint) :
  contains_char newline (NilEmpty.string_of_uint d) = false.
Proof. induction d; simpl; auto. Qed.

Lemma Z_str_no_newline (z : Z) : contains_char newline (Z_str z) = false.
Proof.
  unfold Z_str, NilZero.string_of_int, NilZero.string_of_uint.
  destruct (Z.to_int z) as [d|d]; destruct d; simpl; auto using uint_no_newline.
Qed.




Lemma wire_of_block (t : EventType) (lines : list string) :
  lines <> [] ->
  Forall (fun l => contains_char newline l = false) lines ->
  wire_data_lines (sse_block t (data_block lines)) = lines.
Proof.
  intros Hne H. unfold wire_data_lines. rewrite (block_text_lines t lines Hne H).
  cbn [flat_map]. replace (strip_prefix "data: " ("event: " ++ EventType_value t))
    with (@None string) by (destruct t; reflexivity).
  cbn [app]. rewrite flat_map_app. cbn. rewrite app_nil_r.
  clear. induction lines as [|l lines IH]; cbn [map flat_map]; [reflexivity|].
  rewrite IH. reflexivity.
Qed.

(** ** What is written reads back *)



























(** ** The gated loop *)


Lemma emitted_blocks (blocks : list string) (x : effect) :
  is_Emit x = false -> emitted (map Emit blocks ++ [x]) = blocks.
Proof.
  intros Hx. induction blocks as [|b blocks IH]; simpl.
  - destruct x; try reflexivity; discriminate.
  - rewrite IH. reflexivity.
Qed.

(** The loop emits only in an iteration whose clock is at least the interval
    past the last recorded time and whose gate is true. *)
Lemma emission_needs_guard (self : DatastarStreamer) (i : nat) (t : Z) (st : loop_state) :
  emitted (fst (iteration self i t st)) <> [] ->
  interval self <= t - last_yield_time st /\ condition_callable self i = true.
Proof.
  unfold iteration.
  destruct (t - last_yield_time st >=? interval self) eqn:Ht;
    destruct (condition_callable self i); simpl; try (intros H; now elim H).
  intros _. split; [apply Z.geb_le; exact Ht | reflexivity].
Qed.

Lemma completes_print (blocks : list string) (e : exn) :
  completes (map Emit blocks ++ [Print e]) = false.
Proof.
  unfold completes. rewrite emitted_blocks by reflexivity.
  destruct blocks as [|b blocks]; auto.
  induction (b :: blocks) as [|x l IH]; simpl; auto.
Qed.

(** What one iteration does to the recorded time. *)
Lemma iteration_time (self : DatastarStreamer) (i : nat) (t : Z) (st st' : loop_state)
    (effs : list effect) :
  iteration self i t st = (effs, Continue st') ->
  (last_yield_time st' = last_yield_time st /\ completes effs = false)
  \/ (last_yield_time st' = t /\ interval self <= t - last_yield_time st).
Proof.
  unfold iteration.
  destruct (t - last_yield_time st >=? interval self) eqn:Ht;
    destruct (condition_callable self i); cbn [andb];
    try (intros H; inversion H; subst; left; split; reflexivity).
  apply Z.geb_le in Ht.
  destruct (generator st) as [|[v|e] g]; try discriminate.
  - destruct (DatastarEvent_init v None None None None None None FRAGMENT) as [event|e].
    + destruct (DatastarEvent_stream event) as [blocks [e|]];
        intros H; inversion H; subst; cbn [last_yield_time].
      * left. split; [reflexivity | apply completes_print].
      * right. split; [reflexivity | exact Ht].
    + intros H; inversion H; subst. left. split; reflexivity.
  - intros H; inversion H; subst. left. split; reflexivity.
Qed.

(** What holds of the spacing: with an interval that is not negative, every
    iteration that emits comes at least the interval, by the loop's clock, after
    the previous iteration that emitted its whole event. *)
Lemma emissions_spaced (self : DatastarStreamer) (clock : nat -> Z) (n i : nat)
    (st : loop_state) (prev : option Z) :
  0 <= interval self ->
  (forall p, prev = Some p -> p <= last_yield_time st) ->
  spaced (interval self) prev (fst (iterate self clock n i st)).
Proof.
  intros Hiv. revert i st prev.
  induction n as [|n IH]; intros i st prev Hprev; cbn [iterate]; [exact I|].
  pose proof (emission_needs_guard self i (clock i) st) as Hguard.
  destruct (iteration self i (clock i) st) as [effs [st'|]] eqn:Hit; cbn [fst] in Hguard.
  - specialize (IH (S i) st' (if completes effs then Some (clock i) else prev)).
    destruct (iterate self clock n (S i) st') as [tr c]. cbn [fst spaced] in *.
    split.
    + intros Hem. destruct prev as [p|]; auto.
      destruct (Hguard Hem) as [Ht _]. specialize (Hprev p eq_refl). lia.
    + apply IH. intros p Hp.
      destruct (iteration_time self i (clock i) st st' effs Hit) as [[Hl Hc]|[Hl Ht]].
      * rewrite Hc in Hp. rewrite Hl. auto.
      * rewrite Hl. destruct (completes effs); [inversion Hp; lia|].
        specialize (Hprev p Hp). lia.
  - cbn [fst spaced]. split; auto.
    intros Hem. destruct prev as [p|]; auto.
    destruct (Hguard Hem) as [Ht _]. specialize (Hprev p eq_refl). lia.
Qed.


(** The data lines of an encoded item, taken apart. *)
Lemma fragment_data_lines_inv (self : DatastarEvent) (item : pyval) (lines : list string) :
  fragment_data_lines self item = Ok lines ->
  exists frag ml,
    resolved_frag item = Ok frag
    /\ merge_line (resolved_merge self item) = Ok ml
    /\ lines = not_None [ ml;
                          selector_line (resolved_selector self item);
                          settle_line self;
                          vt_line self;
                          text_line "redirect" (redirect self);
                          text_line "error" (error self);
                          Some ("fragment " ++ py_format frag) ].
Proof.
  unfold fragment_data_lines.
  destruct (resolved_frag item) as [frag|]; cbn [bind]; [|discriminate].
  destruct (merge_line (resolved_merge self item)) as [ml|]; cbn [bind]; [|discriminate].
  intros H; inversion H; subst. eauto.
Qed.

Lemma merge_line_shape (m : pyval) (ml : option string) :
  merge_line m = Ok ml ->
  ml = None \/ exists token, value_of m = Ok token /\ ml = Some ("merge " ++ token).
Proof.
  unfold merge_line. destruct (truthy m).
  - destruct (value_of m) as [token|]; cbn [bind]; intros H; inversion H. eauto.
  - intros H; inversion H. auto.
Qed.

Lemma value_of_no_newline (m : pyval) (token : string) :
  value_of m = Ok token -> contains_char newline token = false.
Proof.
  destruct m as [| | | |m|t| |]; intros H; inversion H;
    [destruct m | destruct t]; reflexivity.
Qed.

Lemma merge_line_or_None (x : pyval) : merge_line (py_or x PNone) = merge_line x.
Proof. unfold py_or, merge_line. destruct (truthy x) eqn:E; [rewrite E|]; reflexivity. Qed.

Lemma selector_line_or_None (x : pyval) : selector_line (py_or x PNone) = selector_line x.
Proof. unfold py_or, selector_line. destruct (truthy x) eqn:E; [rewrite E|]; reflexivity. Qed.

(** What the encoder builds for an item of the event of a payload. *)
Lemma streamer_item_block (v item : pyval) (b : string) :
  format_sse (streamer_event v) item = Ok b ->
  String.prefix "event: datastar-fragment" b = true
  /\ exists frag ml,
       resolved_frag item = Ok frag
       /\ merge_line (item_get "merge" item) = Ok ml
       /\ fragment_data_lines (streamer_event v) item = Ok (streamer_lines ml item frag)
       /\ b = "event: datastar-fragment" ++ nl
              ++ data_block (streamer_lines ml item frag) ++ nl ++ nl
       /\ (forall name, In name ["settle"; "vt"; "redirect"; "error"] ->
                        has_line name (streamer_lines ml item frag) = false)
       /\ (Forall (fun l => contains_char newline l = false) (streamer_lines ml item frag) ->
           wire_data_lines b = streamer_lines ml item frag).
Proof.
  unfold format_sse, _format_fragment_sse. cbn [streamer_event event_type EventType_eqb].
  destruct (fragment_data_lines _ item) as [lines|] eqn:Hl; cbn [bind]; [|discriminate].
  intros Hb; inversion Hb; subst; clear Hb. split; [reflexivity|].
  pose proof Hl as Hinv. apply fragment_data_lines_inv in Hinv.
  destruct Hinv as (frag & ml & Hfrag & Hml & Hlines).
  assert (Hm : merge_line (item_get "merge" item) = Ok ml).
  { rewrite <- Hml. destruct item; try reflexivity.
    cbn [resolved_merge item_get streamer_event merge of_merge].
    symmetry. apply merge_line_or_None. }
  assert (Hs : selector_line (resolved_selector (streamer_event v) item)
               = selector_line (item_get "selector" item)).
  { destruct item; try reflexivity.
    cbn [resolved_selector item_get streamer_event selector of_str].
    apply selector_line_or_None. }
  assert (Heq : lines = streamer_lines ml item frag).
  { rewrite Hlines, Hs. unfold streamer_lines.
    cbn [settle_line vt_line text_line streamer_event settle_duration
           use_view_transitions redirect error].
    destruct ml, (selector_line (item_get "selector" item)); reflexivity. }
  clear Hlines. subst lines. exists frag, ml.
  split; [exact Hfrag|]. split; [exact Hm|]. split; [reflexivity|].
  split; [reflexivity|]. split.
  - intros name Hname. unfold streamer_lines. rewrite has_line_not_None. cbn [existsb].
    rewrite (opt_named_merge _ _ _ Hm), opt_named_selector.
    cbn [opt_named field_name append Ascii.eqb Bool.eqb].
    cbn [In] in Hname.
    destruct Hname as [<-|[<-|[<-|[<-|[]]]]]; cbn [String.eqb Ascii.eqb Bool.eqb];
      rewrite !andb_false_r; reflexivity.
  - intros Hnl. apply (wire_of_block FRAGMENT); [|exact Hnl].
    unfold streamer_lines.
    destruct ml, (selector_line (item_get "selector" item)); discriminate.
Qed.

Lemma streamer_item_blocks (v : pyval) (items : list pyval) :
  Forall (fun b => exists item, In item items
                               /\ format_sse (streamer_event v) item = Ok b)
         (fst (yield_each (streamer_event v) items)).
Proof.
  induction items as [|item items IH]; simpl; auto.
  destruct (format_sse (streamer_event v) item) as [b|e] eqn:Hb; simpl; auto.
  destruct (yield_each (streamer_event v) items) as [blocks r]. simpl in *.
  constructor; eauto.
  eapply Forall_impl; [|exact IH]. intros b' (item' & Hin & Hf). eauto.
Qed.

(** The blocks of the event of a payload are blocks of its items. *)
Lemma streamer_event_blocks (v : pyval) :
  Forall (streamer_block v) (fst (DatastarEvent_stream (streamer_event v))).
Proof.
  assert (H : Forall (fun b => exists item, In item (content_items v)
                                         /\ format_sse (streamer_event v) item = Ok b)
                     (fst (DatastarEvent_stream (streamer_event v)))).
  { unfold DatastarEvent_stream, __aiter__, content_items. cbn [streamer_event content].
    destruct (is_str v || is_dict v).
    - apply streamer_item_blocks.
    - destruct v; cbn; auto. apply streamer_item_blocks. }
  eapply Forall_impl; [|exact H]. intros b (item & Hin & Hf).
  destruct (streamer_item_block v item b Hf) as (Hp & frag & ml & H1 & H2 & H3 & H4 & H5 & H6).
  split; [exact Hp|]. exists item, frag, ml. repeat split; auto.
Qed.

Lemma init_streamer_event (v : pyval) (event : DatastarEvent) :
  DatastarEvent_init v None None None None None None FRAGMENT = Ok event ->
  event = streamer_event v.
Proof.
  unfold DatastarEvent_init. destruct (__post_init__ _); cbn [bind]; [|discriminate].
  intros H; inversion H; reflexivity.
Qed.

Lemma iteration_blocks (self : DatastarStreamer) (i : nat) (t : Z) (st : loop_state) :
  Forall (fun b => exists v, In (Yielded v) (generator st) /\ streamer_block v b)
         (emitted (fst (iteration self i t st))).
Proof.
  unfold iteration.
  destruct ((t - last_yield_time st >=? interval self) && condition_callable self i);
    [|simpl; auto].
  destruct (generator st) as [|[v|e] g]; simpl; auto.
  destruct (DatastarEvent_init v None None None None None None FRAGMENT) as [event|e] eqn:Hev;
    simpl; auto.
  apply init_streamer_event in Hev. subst event.
  pose proof (streamer_event_blocks v) as Hall.
  destruct (DatastarEvent_stream (streamer_event v)) as [blocks [e|]]; simpl in *;
    rewrite emitted_blocks by reflexivity;
    (eapply Forall_impl; [|exact Hall]); intros b Hb; exists v; auto.
Qed.

Lemma iteration_keeps_source (self : DatastarStreamer) (i : nat) (t : Z)
    (st st' : loop_state) (effs : list effect) :
  iteration self i t st = (effs, Continue st') ->
  incl (generator st') (generator st).
Proof.
  unfold iteration.
  destruct ((t - last_yield_time st >=? interval self) && condition_callable self i).
  - destruct (generator st) as [|[v|e] g]; [discriminate| |].
    + destruct (DatastarEvent_init v None None None None None None FRAGMENT) as [event|e].
      * destruct (DatastarEvent_stream event) as [blocks [e|]];
          intros H; inversion H; subst; apply incl_tl, incl_refl.
      * intros H; inversion H; subst; apply incl_tl, incl_refl.
    + intros H; inversion H; subst; apply incl_tl, incl_refl.
  - intros H; inversion H; subst. apply incl_refl.
Qed.

Lemma iterate_blocks (self : DatastarStreamer) (clock : nat -> Z) (n : nat) :
  forall i st,
    Forall (fun tick =>
              Forall (fun b => exists v, In (Yielded v) (generator st) /\ streamer_block v b)
                     (emitted (snd tick)))
           (fst (iterate self clock n i st)).
Proof.
  induction n as [|n IH]; intros i st; simpl; auto.
  pose proof (iteration_blocks self i (clock i) st) as Hit.
  destruct (iteration self i (clock i) st) as [effs [st'|]] eqn:E; simpl in *.
  - specialize (IH (S i) st'). pose proof (iteration_keeps_source self _ _ _ _ _ E) as Hincl.
    destruct (iterate self clock n (S i) st') as [tr c]. simpl in *.
    constructor; auto.
    eapply Forall_impl; [|exact IH]. intros tick Htick.
    eapply Forall_impl; [|exact Htick]. intros b (v & Hin & Hb). exists v. auto.
  - constructor; auto.
Qed.

(** C10, as amended: whatever the gate, the clock and the source, every block
    that DatastarStreamer.stream emits is the block of a fragment event (it
    starts with event: datastar-fragment) that the encoder builds for one item
    of a payload of the source, the payload wrapped with every default None:
    its data lines are that item's merge line and selector line, when the item
    gives them, and its fragment line; the encoder builds no settle, vt,
    redirect or error line.  When none of these lines holds a line feed, they
    are exactly the data lines of the block's text. *)
Theorem streamer_blocks_from_items (self : DatastarStreamer)
    (fragment_generator : list pull) (clock : nat -> Z) (n : nat) :
  Forall (fun tick =>
            Forall (fun b => exists v, In (Yielded v) fragment_generator
                                       /\ streamer_block v b)
                   (emitted (snd tick)))
         (fst (DatastarStreamer_stream self fragment_generator clock n)).
Proof.
  exact (iterate_blocks self clock n 0%nat
           {| generator := fragment_generator; last_yield_time := 0 |}).
Qed.

(** ** The unconditional pump *)




(** ** More on the encoder *)

Lemma In_not_None_inv (x : string) (opts : list (option string)) :
  In x (not_None opts) -> In (Some x) opts.
Proof.
  induction opts as [|[l|] opts IH]; simpl; auto.
  intros [H|H]; [left; congruence | auto].
Qed.

Lemma Forall_not_None (P : string -> Prop) (opts : list (option string)) :
  (forall x, In (Some x) opts -> P x) -> Forall P (not_None opts).
Proof.
  induction opts as [|[l|] opts IH]; simpl; intros H; auto.
Qed.

Lemma yield_each_spec (self : DatastarEvent) (items : list pyval) (blocks : list string)
    (r : option exn) :
  yield_each self items = (blocks, r) ->
  Forall2 (fun item b => format_sse self item = Ok b)
          (firstn (List.length blocks) items) blocks
  /\ match r with
     | None => List.length blocks = List.length items
     | Some e => exists item,
                   nth_error items (List.length blocks) = Some item
                   /\ format_sse self item = Raise e
     end.
Proof.
  revert blocks r. induction items as [|x items IH]; simpl; intros blocks r H.
  - inversion H; subst. simpl. auto.
  - destruct (format_sse self x) as [b|e] eqn:Hx.
    + destruct (yield_each self items) as [bs r'] eqn:E. inversion H; subst.
      destruct (IH bs r eq_refl) as [Hall Hr]. simpl. split; [constructor; auto|].
      destruct r as [e|]; [exact Hr | congruence].
    + inversion H; subst. simpl. split; [constructor | exists x; auto].
Qed.

(** The blocks of a list content: one block per item, in the order of the list,
    up to the first item whose encoding raises; that exception ends the
    iteration, and without one there are as many blocks as items. *)
Theorem list_content_blocks (self : DatastarEvent) (items : list pyval)
    (blocks : list string) (r : option exn) :
  content self = PList items ->
  DatastarEvent_stream self = (blocks, r) ->
  Forall2 (fun item b => format_sse self item = Ok b)
          (firstn (List.length blocks) items) blocks
  /\ match r with
     | None => List.length blocks = List.length items
     | Some e => exists item,
                   nth_error items (List.length blocks) = Some item
                   /\ format_sse self item = Raise e
     end.
Proof.
  intros Hc. unfold DatastarEvent_stream, __aiter__. rewrite Hc. simpl.
  apply yield_each_spec.
Qed.

Lemma fragment_item_block (self : DatastarEvent) (item : pyval) :
  event_type self = FRAGMENT -> fragment_item item = true ->
  exists b, format_sse self item = Ok b.
Proof.
  intros Ht Hitem. destruct (fragment_item_lines self item Hitem) as (ml & _ & Hl).
  unfold format_sse, _format_fragment_sse. rewrite Ht, Hl. simpl. eauto.
Qed.

(** create_fragment over a list of fragment items, each with its fragment text,
    builds an event, whatever the keyword defaults, and the event's stream
    encodes every item: as many blocks as items, and no exception. *)
Theorem fragment_list_encodes (items : list pyval) (m : option MergeType)
    (sel : option string) (st : option Z) (vt : option bool) (red err : option string) :
  Forall (fun item => fragment_item item = true) items ->
  exists event blocks,
    create_fragment (PList items) m sel st vt red err = Ok event
    /\ DatastarEvent_stream event = (blocks, None)
    /\ List.length blocks = List.length items.
Proof.
  intros Hall. eexists. 
  assert (H : exists blocks,
             yield_each {| content := PList items; merge := m; selector := sel;
                           settle_duration := st; use_view_transitions := vt;
                           redirect := red; error := err; event_type := FRAGMENT |} items
             = (blocks, None) /\ List.length blocks = List.length items).
  { generalize (PList items) as c. intros c.
    induction Hall as [|x items Hx _ IH]; simpl; eauto.
    destruct (fragment_item_block
                {| content := c; merge := m; selector := sel; settle_duration := st;
                   use_view_transitions := vt; redirect := red; error := err;
                   event_type := FRAGMENT |} x eq_refl Hx) as [b Hb].
    rewrite Hb. destruct IH as (blocks & Hy & Hlen). rewrite Hy.
    exists (b :: blocks). simpl. auto. }
  destruct H as (blocks & Hy & Hlen). exists blocks.
  split; [reflexivity|]. split; [exact Hy | exact Hlen].
Qed.

(** The merge of an item mapping that is truthy is written through its .value:
    a member of either enumeration of the module gives the line merge and its
    value, whichever enumeration it is of; a value that has no .value (a plain
    string, a number, True, a list or a dict) raises AttributeError.  The
    event's own merge plays no part. *)
Theorem merge_value_or_error (self : DatastarEvent) (d : pydict) :
  truthy (dict_get "merge" d) = true ->
  dict_lookup "fragment" d <> None ->
  match dict_get "merge" d with
  | PMerge m =>
      exists rest, fragment_data_lines self (PDict d)
                   = Ok (("merge " ++ MergeType_value m) :: rest)
  | PKind t =>
      exists rest, fragment_data_lines self (PDict d)
                   = Ok (("merge " ++ EventType_value t) :: rest)
  | _ => _format_fragment_sse self (PDict d) = Raise AttributeError
  end.
Proof.
  intros Ht Hf. unfold _format_fragment_sse, fragment_data_lines. simpl.
  destruct (dict_lookup "fragment" d) as [v|]; [|contradiction]. cbn [bind].
  unfold py_or, merge_line. rewrite Ht, Ht.
  destruct (dict_get "merge" d); try discriminate; cbn [value_of bind not_None];
    try reflexivity; eexists; reflexivity.
Qed.

Lemma named_not (n m : string) (o : option string) (x : string) :
  named n o -> o = Some x -> field_name x = m -> n = m.
Proof. intros Hn -> Hx. simpl in Hn. congruence. Qed.

(** Whatever the item, a merge line of its encoding is the word merge and the
    .value of the merge in force: the item's own when it is truthy, the event's
    otherwise. *)
Theorem merge_line_token (self : DatastarEvent) (item : pyval) (lines : list string)
    (l : string) :
  fragment_data_lines self item = Ok lines ->
  In l lines ->
  field_name l = "merge" ->
  exists token, value_of (resolved_merge self item) = Ok token /\ l = "merge " ++ token.
Proof.
  intros Hl Hin Hname. apply fragment_data_lines_inv in Hl.
  destruct Hl as (frag & ml & _ & Hml & ->).
  apply In_not_None_inv in Hin. simpl in Hin.
  destruct Hin as [H|[H|[H|[H|[H|[H|[H|[]]]]]]]].
  - destruct (merge_line_shape _ _ Hml) as [->|(token & Hv & ->)]; inversion H.
    exists token. auto.
  - pose proof (named_not _ _ _ _ (selector_line_named _) H Hname). discriminate.
  - pose proof (named_not _ _ _ _ (settle_line_named _) H Hname). discriminate.
  - pose proof (named_not _ _ _ _ (vt_line_named _) H Hname). discriminate.
  - pose proof (named_not _ _ _ _ (redirect_line_named _) H Hname). discriminate.
  - pose proof (named_not _ _ _ _ (error_line_named _) H Hname). discriminate.
  - inversion H; subst. discriminate.
Qed.

(** The text of the block of a fragment item whose texts hold no line feed
    (its fragment and selector, the event's selector, redirect and error) is,
    line by line: the event line, one data: line per data line of the encoder,
    and the blank line that ends the block. *)
Theorem fragment_block_lines (self : DatastarEvent) (item : pyval) :
  event_type self = FRAGMENT ->
  fragment_item item = true ->
  contains_char newline (item_text item) = false ->
  contains_char newline (opt_text (item_selector item)) = false ->
  contains_char newline (opt_text (selector self)) = false ->
  contains_char newline (opt_text (redirect self)) = false ->
  contains_char newline (opt_text (error self)) = false ->
  exists lines b,
    fragment_data_lines self item = Ok lines
    /\ format_sse self item = Ok b
    /\ text_lines b
       = "event: datastar-fragment" :: (map (append "data: ") lines ++ [""; ""])%list.
Proof.
  intros Ht Hitem Htext Hisel Hsel Hred Herr.
  destruct (fragment_item_lines self item Hitem) as (ml & Hml & Hl).
  destruct (resolved_typed self item Hitem) as [_ Hs].
  eexists. eexists. split; [exact Hl|]. split.
  { unfold format_sse, _format_fragment_sse. rewrite Ht, Hl. reflexivity. }
  apply (block_text_lines FRAGMENT).
  { destruct ml, (selector_line (resolved_selector self item)), (settle_line self),
      (vt_line self), (text_line "redirect" (redirect self)),
      (text_line "error" (error self)); discriminate. }
  clear Hl. apply Forall_not_None. intros x Hin. cbn [In] in Hin.
  destruct Hin as [H|[H|[H|[H|[H|[H|[H|[]]]]]]]].
  - destruct (merge_line_shape _ _ Hml) as [->|(token & Hv & ->)]; inversion H; subst.
    change (contains_char newline ("merge " ++ token) = false).
    rewrite contains_char_app, (value_of_no_newline _ _ Hv). reflexivity.
  - rewrite Hs in H. unfold selector_line in H.
    assert (Ho : contains_char newline
                   (opt_text (coalesce (nonempty (item_selector item)) (selector self)))
                 = false).
    { destruct (item_selector item) as [q|]; cbn [nonempty coalesce]; auto.
      destruct (String.eqb q ""); cbn [coalesce]; auto. }
    destruct (coalesce (nonempty (item_selector item)) (selector self)) as [q|];
      cbn [of_str truthy opt_text] in H, Ho; [|discriminate].
    destruct (String.eqb q ""); inversion H; subst.
    change (contains_char newline ("selector " ++ q) = false).
    rewrite contains_char_app, Ho. reflexivity.
  - unfold settle_line in H. destruct (settle_duration self) as [z|]; [|discriminate].
    destruct (z =? 0); inversion H; subst.
    change (contains_char newline ("settle " ++ Z_str z) = false).
    rewrite contains_char_app, Z_str_no_newline. reflexivity.
  - unfold vt_line in H. destruct (use_view_transitions self) as [[|]|];
      inversion H; subst; reflexivity.
  - destruct (redirect self) as [q|]; cbn [text_line opt_text] in H, Hred; [|discriminate].
    destruct (String.eqb q ""); inversion H; subst.
    change (contains_char newline ("redirect " ++ q) = false).
    rewrite contains_char_app, Hred. reflexivity.
  - destruct (error self) as [q|]; cbn [text_line opt_text] in H, Herr; [|discriminate].
    destruct (String.eqb q ""); inversion H; subst.
    change (contains_char newline ("error " ++ q) = false).
    rewrite contains_char_app, Herr. reflexivity.
  - inversion H; subst.
    change (contains_char newline ("fragment " ++ item_text item) = false).
    rewrite contains_char_app, Htext. reflexivity.
Qed.

(** ** More on the gated loop *)

Lemma iteration_last_le (self : DatastarStreamer) (i : nat) (t : Z) (st st' : loop_state)
    (effs : list effect) :
  0 <= interval self ->
  iteration self i t st = (effs, Continue st') ->
  last_yield_time st <= last_yield_time st'.
Proof.
  intros Hiv Hit. destruct (iteration_time self i t st st' effs Hit) as [[H _]|[H Ht]]; lia.
Qed.

(** The part of a run from one of its iterations on is a run from the state the
    loop was in then; the recorded time has not gone back. *)
Lemma iterate_from (self : DatastarStreamer) (clock : nat -> Z)
    (pre : list (Z * list effect)) :
  forall n i st x rest,
    fst (iterate self clock n i st) = (pre ++ x :: rest)%list ->
    exists m stj,
      fst (iterate self clock (S m) (i + List.length pre) stj) = x :: rest
      /\ (0 <= interval self -> last_yield_time st <= last_yield_time stj)
      /\ exists k, generator stj = skipn k (generator st).
Proof.
  induction pre as [|y pre IH]; intros n i st x rest H.
  - destruct n as [|m]; [discriminate|]. exists m, st.
    rewrite Nat.add_0_r. repeat split; [exact H | lia | exists 0%nat; reflexivity].
  - destruct n as [|n]; [discriminate|]. cbn [iterate] in H.
    destruct (iteration self i (clock i) st) as [effs [st'|]] eqn:Hit.
    + destruct (iterate self clock n (S i) st') as [tr c] eqn:E.
      cbn [fst app] in H. inversion H; subst.
      destruct (IH n (S i) st' x rest) as (m & stj & Hrun & Hle & k & Hk).
      { rewrite E. reflexivity. }
      exists m, stj. cbn [List.length]. rewrite Nat.add_succ_r. split; [exact Hrun|].
      split.
      * intros Hiv. pose proof (iteration_last_le self i (clock i) st st' _ Hiv Hit).
        specialize (Hle Hiv). lia.
      * revert Hit Hk. clear. unfold iteration.
        destruct ((clock i - last_yield_time st >=? interval self)
                  && condition_callable self i).
        -- destruct (generator st) as [|[v|e] g] eqn:Hg; [discriminate| |].
           ++ destruct (DatastarEvent_init v None None None None None None FRAGMENT).
              ** destruct (DatastarEvent_stream a) as [bs [e|]];
                   intros H Hk; inversion H; subst; exists (S k); exact Hk.
              ** intros H Hk; inversion H; subst; exists (S k); exact Hk.
           ++ intros H Hk; inversion H; subst; exists (S k); exact Hk.
        -- intros H Hk; inversion H; subst. exists k. exact Hk.
    + cbn [fst app] in H. inversion H. destruct pre; discriminate.
Qed.

Lemma iterate_head (self : DatastarStreamer) (clock : nat -> Z) (m j : nat)
    (stj : loop_state) (t : Z) (effs : list effect) (rest : list (Z * list effect)) :
  fst (iterate self clock (S m) j stj) = (t, effs) :: rest ->
  t = clock j
  /\ fst (iteration self j (clock j) stj) = effs
  /\ (rest <> [] ->
      exists st', iteration self j (clock j) stj = (effs, Continue st')
                  /\ fst (iterate self clock m (S j) st') = rest).
Proof.
  cbn [iterate]. destruct (iteration self j (clock j) stj) as [effs' [st'|]] eqn:Hit.
  - destruct (iterate self clock m (S j) st') as [tr c] eqn:E. cbn [fst].
    intros H; inversion H; subst. repeat split. intros _. exists st'.
    rewrite E. auto.
  - cbn [fst]. intros H; inversion H; subst. repeat split. intros Hne. now elim Hne.
Qed.

(** With an interval that is not negative, an iteration that emits comes at
    least the interval, by the loop's clock, after every earlier iteration that
    emitted its whole event and reached its sleep. *)
Theorem streamer_spacing (self : DatastarStreamer) (fragment_generator : list pull)
    (clock : nat -> Z) (n : nat) (pre mid post : list (Z * list effect))
    (ta tb : Z) (ea eb : list effect) :
  0 <= interval self ->
  fst (DatastarStreamer_stream self fragment_generator clock n)
  = (pre ++ (ta, ea) :: mid ++ (tb, eb) :: post)%list ->
  completes ea = true ->
  emitted eb <> [] ->
  interval self <= tb - ta.
Proof.
  intros Hiv Hrun Ha Hb. unfold DatastarStreamer_stream in Hrun.
  destruct (iterate_from self clock pre _ _ _ _ _ Hrun) as (m & stj & Hj & _ & _).
  destruct (iterate_head self clock m _ stj ta ea _ Hj) as (Hta & _ & Hnext).
  destruct Hnext as (st' & Hit & Hrest); [destruct mid; discriminate|].
  rewrite <- Hta in Hit.
  destruct (iteration_time self _ _ stj st' ea Hit) as [[_ Hc]|[Hl _]]; [congruence|].
  destruct (iterate_from self clock mid _ _ _ _ _ Hrest) as (m2 & st2 & H2 & Hle & _).
  destruct (iterate_head self clock m2 _ st2 tb eb _ H2) as (Htb & Heb & _).
  rewrite <- Heb in Hb. rewrite <- Htb in Hb.
  destruct (emission_needs_guard self _ tb st2 Hb) as [Hg _].
  specialize (Hle Hiv). lia.
Qed.

(** An iteration of a run emits only when its gate is true; and, the interval
    not being negative, not before the loop's clock has reached the interval. *)
Theorem emission_needs_gate (self : DatastarStreamer) (fragment_generator : list pull)
    (clock : nat -> Z) (n : nat) (pre post : list (Z * list effect))
    (t : Z) (effs : list effect) :
  fst (DatastarStreamer_stream self fragment_generator clock n)
  = (pre ++ (t, effs) :: post)%list ->
  emitted effs <> [] ->
  t = clock (List.length pre)
  /\ condition_callable self (List.length pre) = true
  /\ (0 <= interval self -> interval self <= t).
Proof.
  intros Hrun Hem. unfold DatastarStreamer_stream in Hrun.
  destruct (iterate_from self clock pre _ _ _ _ _ Hrun) as (m & stj & Hj & Hle & _).
  destruct (iterate_head self clock m _ stj t effs _ Hj) as (Ht & Heffs & _).
  cbn [Nat.add] in Ht, Heffs. rewrite <- Heffs, <- Ht in Hem.
  destruct (emission_needs_guard self _ t stj Hem) as [Hg Hc].
  repeat split; auto. intros Hiv. specialize (Hle Hiv). cbn [last_yield_time] in Hle. lia.
Qed.

Lemma iterate_idle (self : DatastarStreamer) (clock : nat -> Z) (n : nat) :
  forall i st,
    (forall k, (i <= k < i + n)%nat ->
               condition_callable self k = false
               \/ clock k - last_yield_time st < interval self) ->
    iterate self clock n i st
    = (map (fun k => (clock k, [Sleep (sleep_interval self)])) (seq i n), Continue st).
Proof.
  induction n as [|n IH]; intros i st H; cbn [iterate seq map]; auto.
  assert (Hg : (clock i - last_yield_time st >=? interval self)
               && condition_callable self i = false).
  { destruct (H i) as [Hc|Ht]; [lia| |].
    - rewrite Hc. apply andb_false_r.
    - apply andb_false_intro1. rewrite Z.geb_leb. apply Z.leb_gt. exact Ht. }
  unfold iteration. rewrite Hg. rewrite IH; auto.
  intros k Hk. apply H. lia.
Qed.

(** While the gate is false or the clock has not reached the interval, the loop
    only sleeps: it never pulls from the source and emits nothing. *)
Theorem closed_gate_only_sleeps (self : DatastarStreamer) (fragment_generator : list pull)
    (clock : nat -> Z) (n : nat) :
  (forall i, (i < n)%nat ->
             condition_callable self i = false \/ clock i < interval self) ->
  DatastarStreamer_stream self fragment_generator clock n
  = (map (fun i => (clock i, [Sleep (sleep_interval self)])) (seq 0 n),
     Continue {| generator := fragment_generator; last_yield_time := 0 |}).
Proof.
  intros H. apply iterate_idle. intros k Hk. cbn [last_yield_time].
  destruct (H k) as [Hc|Ht]; [lia|auto|right; lia].
Qed.

Lemma iteration_consumes (self : DatastarStreamer) (i : nat) (t : Z) (st : loop_state)
    (effs : list effect) (c : control) :
  iteration self i t st = (effs, c) ->
  (emitted effs = [] /\ forall st', c = Continue st' -> generator st' = generator st)
  \/ (exists p g st', generator st = p :: g /\ emitted effs = pull_blocks p
                       /\ c = Continue st' /\ generator st' = g).
Proof.
  unfold iteration.
  destruct ((t - last_yield_time st >=? interval self) && condition_callable self i).
  - destruct (generator st) as [|[v|e] g] eqn:Hg.
    + intros H; inversion H; subst. left. split; [reflexivity|discriminate].
    + assert (Hp : pull_blocks (Yielded v)
                   = match DatastarEvent_init v None None None None None None FRAGMENT with
                     | Ok event => fst (DatastarEvent_stream event)
                     | Raise _ => []
                     end) by reflexivity.
      destruct (DatastarEvent_init v None None None None None None FRAGMENT) as [event|e].
      * destruct (DatastarEvent_stream event) as [blocks [e|]];
          intros H; inversion H; subst; right; exists (Yielded v), g; eexists;
          (split; [reflexivity|]); (split; [|split; reflexivity]);
          rewrite Hp; apply emitted_blocks; reflexivity.
      * intros H; inversion H; subst. right. exists (Yielded v), g. eexists.
        split; [reflexivity|]. split; [|split; reflexivity]. rewrite Hp. reflexivity.
    + intros H; inversion H; subst. right. exists (Failed e), g. eexists.
      split; [reflexivity|]. split; [|split; reflexivity]. reflexivity.
  - intros H; inversion H; subst. left. split; [reflexivity|].
    intros st' Hc; inversion Hc; reflexivity.
Qed.

Lemma iterate_conserves (self : DatastarStreamer) (clock : nat -> Z) (n : nat) :
  forall i st,
    exists k, (k <= n)%nat
      /\ trace_blocks (fst (iterate self clock n i st))
         = List.concat (map pull_blocks (firstn k (generator st)))
      /\ forall st', snd (iterate self clock n i st) = Continue st' ->
                     generator st' = skipn k (generator st).
Proof.
  induction n as [|n IH]; intros i st; cbn [iterate].
  - exists 0%nat. repeat split; auto. intros st' H; inversion H; reflexivity.
  - destruct (iteration self i (clock i) st) as [effs c] eqn:Hit.
    destruct (iteration_consumes self i (clock i) st effs c Hit)
      as [[Hem Hgen]|(p & g & st' & Hgen & Hem & -> & Hg)].
    + destruct c as [st'|].
      * destruct (IH (S i) st') as (k & Hk & Hb & Hs).
        destruct (iterate self clock n (S i) st') as [tr c'].
        exists k. split; [lia|]. rewrite <- (Hgen st' eq_refl). split; [|exact Hs].
        unfold trace_blocks in *. cbn [fst snd map List.concat] in *. rewrite Hem.
        exact Hb.
      * exists 0%nat. split; [lia|]. split; [|discriminate].
        unfold trace_blocks. cbn. rewrite Hem. reflexivity.
    + destruct (IH (S i) st') as (k & Hk & Hb & Hs).
      destruct (iterate self clock n (S i) st') as [tr c'].
      exists (S k). split; [lia|]. rewrite Hgen. rewrite Hg in Hb, Hs. split; [|exact Hs].
      unfold trace_blocks in *. cbn [fst snd map List.concat firstn] in *.
      rewrite Hem, Hb. reflexivity.
Qed.

(** The loop pulls at most one payload per iteration and takes the source in
    order: after any number of iterations the blocks emitted so far are those of
    the first k pulls of the source, pull by pull, and what is left of the
    source is the source without those k pulls. *)
Theorem streamer_conserves_source (self : DatastarStreamer) (fragment_generator : list pull)
    (clock : nat -> Z) (n : nat) :
  exists k, (k <= n)%nat
    /\ trace_blocks (fst (DatastarStreamer_stream self fragment_generator clock n))
       = List.concat (map pull_blocks (firstn k fragment_generator))
    /\ forall st', snd (DatastarStreamer_stream self fragment_generator clock n)
                   = Continue st' ->
                   generator st' = skipn k fragment_generator.
Proof. apply iterate_conserves. Qed.

(** ** More on the unconditional pump *)

Lemma create_sse_stream_app (payloads : list pyval) (blocks : list (list string))
    (tail : list pull) (m : option MergeType) (sel : option string) (st : option Z)
    (vt : option bool) (t : EventType) (pause : Z) :
  Forall2 (fun data bs => event_blocks data m sel st vt t = Ok bs) payloads blocks ->
  create_sse_stream (map Yielded payloads ++ tail) m sel st vt t pause
  = (List.concat (map (fun bs => (map Emit bs ++ [Sleep pause])%list) blocks)
       ++ fst (create_sse_stream tail m sel st vt t pause),
     snd (create_sse_stream tail m sel st vt t pause))%list.
Proof.
  intros H. induction H as [|data bs payloads blocks Hev _ IH]; simpl.
  - destruct (create_sse_stream tail m sel st vt t pause); reflexivity.
  - unfold event_blocks in Hev.
    destruct (DatastarEvent_init data m sel st vt None None t) as [event|e];
      cbn [bind] in Hev; [|discriminate].
    destruct (DatastarEvent_stream event) as [bs' [e|]]; inversion Hev; subst.
    rewrite IH. cbn [fst snd]. rewrite <- !app_assoc. reflexivity.
Qed.

(** create_sse_stream does not catch: after the payloads that were encoded, an
    exception of the source ends the stream with that exception and nothing
    more; a payload whose event cannot be built ends it with the constructor's
    exception and nothing more; a payload whose event fails while it is encoded
    ends it with the encoder's exception, after exactly the blocks that event
    had yielded and with no sleep.  The rest of the source is never pulled. *)
Theorem create_sse_stream_propagates (payloads : list pyval) (blocks : list (list string))
    (m : option MergeType) (sel : option string) (st : option Z) (vt : option bool)
    (t : EventType) (pause : Z) :
  Forall2 (fun data bs => event_blocks data m sel st vt t = Ok bs) payloads blocks ->
  (forall e rest,
      create_sse_stream (map Yielded payloads ++ Failed e :: rest) m sel st vt t pause
      = (List.concat (map (fun bs => (map Emit bs ++ [Sleep pause])%list) blocks), Some e))
  /\ (forall data e rest,
        DatastarEvent_init data m sel st vt None None t = Raise e ->
        create_sse_stream (map Yielded payloads ++ Yielded data :: rest) m sel st vt t pause
        = (List.concat (map (fun bs => (map Emit bs ++ [Sleep pause])%list) blocks), Some e))
  /\ (forall data event partial e rest,
        DatastarEvent_init data m sel st vt None None t = Ok event ->
        DatastarEvent_stream event = (partial, Some e) ->
        create_sse_stream (map Yielded payloads ++ Yielded data :: rest) m sel st vt t pause
        = ((List.concat (map (fun bs => (map Emit bs ++ [Sleep pause])%list) blocks)
             ++ map Emit partial)%list, Some e)).
Proof.
  intros H. split; [|split].
  - intros e rest. rewrite (create_sse_stream_app _ _ _ _ _ _ _ _ _ H). simpl.
    rewrite app_nil_r. reflexivity.
  - intros data e rest Hev. rewrite (create_sse_stream_app _ _ _ _ _ _ _ _ _ H).
    cbn [create_sse_stream]. rewrite Hev. cbn [fst snd]. rewrite app_nil_r. reflexivity.
  - intros data event partial e rest Hev Hs.
    rewrite (create_sse_stream_app _ _ _ _ _ _ _ _ _ H).
    cbn [create_sse_stream]. rewrite Hev, Hs. reflexivity.
Qed.

End Datastar.

(** ** The inline classes and the routes *)

Section Inline.

Variable python : rendering.

Lemma data_join (lines : list string) :
  lines <> [] ->
  "data: " ++ join (nl ++ "data: ") lines = join nl (map (append "data: ") lines).
Proof.
  intros Hne. induction lines as [|x lines IH]; [contradiction|].
  destruct lines as [|y lines]; [reflexivity|].
  change (join (nl ++ "data: ") (x :: y :: lines))
    with (x ++ (nl ++ "data: ") ++ join (nl ++ "data: ") (y :: lines)).
  change (join nl (map (append "data: ") (x :: y :: lines)))
    with (("data: " ++ x) ++ nl ++ join nl (map (append "data: ") (y :: lines))).
  rewrite <- IH by discriminate. rewrite !append_assoc. reflexivity.
Qed.

(** The inline encoder of main_1.py lists its data lines in the order selector,
    merge, settle, vt, fragment, whatever its arguments. *)
Theorem inline_lines_in_spec_order
    (fragment m q settle vt : pyval) (lines : list string) :
  Main1.data_lines python fragment m q settle vt = Ok lines ->
  in_order spec_order (map field_name lines) = true
  /\ last lines "" = "fragment " ++ render (format_other python) fragment.
Proof.
  unfold Main1.data_lines.
  destruct (truthy q), (truthy settle);
    (destruct (truthy m); [destruct m; try discriminate|]);
    cbn [bind]; intros H; inversion H; subst; clear H;
    destruct vt; split; reflexivity.
Qed.

(** What the inline class formats is the block of its data lines, laid out as
    the library lays a block out. *)
Lemma inline_block (lines : list string) :
  lines <> [] ->
  Main1.format_sse {| Main1.data := join (nl ++ "data: ") lines;
                      Main1.event := "datastar-fragment" |}
  = sse_block FRAGMENT (data_block lines).
Proof.
  intros Hne. unfold Main1.format_sse, sse_block, data_block.
  cbn [Main1.event Main1.data EventType_value].
  change (map (fun line => "data: " ++ line) lines) with (map (append "data: ") lines).
  rewrite <- (data_join lines Hne). rewrite !append_assoc. reflexivity.
Qed.

(** For a string fragment and arguments of the annotated types, the inline
    encoder and the library's encoder build blocks of the same layout from
    their data lines, and the same data lines unless both a merge and a
    non-empty selector are given; then the lines are the same but for these
    two, which come in opposite orders. *)
Theorem inline_agrees_with_library (s : string) (m : option MergeType)
    (q : option string) (settle : option Z) (vt : option bool) :
  let event := {| content := PStr s; merge := m; selector := q;
                  settle_duration := settle; use_view_transitions := vt;
                  redirect := None; error := None; event_type := FRAGMENT |} in
  exists inline inline_lines lines,
    Main1.data_lines python (PStr s) (of_merge m) (of_str q) (of_int settle) (of_bool vt)
    = Ok inline_lines
    /\ Main1.__init__ python (PStr s) (of_merge m) (of_str q) (of_int settle) (of_bool vt)
       = Ok inline
    /\ Main1.format_sse inline = sse_block FRAGMENT (data_block inline_lines)
    /\ fragment_data_lines python event (PStr s) = Ok lines
    /\ format_sse python event (PStr s) = Ok (sse_block FRAGMENT (data_block lines))
    /\ match m, nonempty q with
       | Some t, Some sel =>
           exists rest,
             lines = ("merge " ++ MergeType_value t) :: ("selector " ++ sel) :: rest
             /\ inline_lines
                = ("selector " ++ sel) :: ("merge " ++ MergeType_value t) :: rest
       | _, _ => inline_lines = lines
       end.
Proof.
  cbv zeta.
  unfold Main1.__init__, Main1.data_lines, format_sse, _format_fragment_sse,
    fragment_data_lines, merge_line, selector_line, settle_line, vt_line.
  destruct m as [t|], q as [sel|], settle as [z|], vt as [[|]|];
    cbn [of_merge of_str of_int of_bool truthy nonempty resolved_frag resolved_merge
           resolved_selector merge selector settle_duration use_view_transitions
           redirect error text_line event_type EventType_eqb];
    try (destruct (String.eqb sel "")); try (destruct (z =? 0));
    cbn [negb bind app not_None];
    (eexists; eexists; eexists;
     split; [reflexivity|]; split; [reflexivity|];
     split; [apply inline_block; discriminate|];
     split; [reflexivity|]; split; [reflexivity|];
     try reflexivity; eexists; split; reflexivity).
Qed.

(** For a mapping, the library's create_signal followed by stream yields the
    one block that the inline DatastarSignal formats; for a string they part:
    the inline class writes the string as JSON, in quotes and escaped, the
    library writes it as it is. *)
Theorem signal_agrees_with_inline :
  (forall d, exists event,
      create_signal (PDict d) = Ok event
      /\ DatastarEvent_stream python event
         = ([Main1.DatastarSignal_format_sse (PDict d)], None))
  /\ (forall s, exists event,
        create_signal (PStr s) = Ok event
        /\ DatastarEvent_stream python event
           = (["event: datastar-signal" ++ nl ++ "data: " ++ s ++ nl ++ nl], None)
        /\ Main1.DatastarSignal_format_sse (PStr s)
           = "event: datastar-signal" ++ nl ++ "data: " ++ dquote ++ json_escape_all s
             ++ dquote ++ nl ++ nl).
Proof.
  split.
  - intros d. eexists. split; reflexivity.
  - intros s. eexists. repeat split.
    unfold Main1.DatastarSignal_format_sse. cbn [json_dumps]. unfold json_string.
    rewrite !append_assoc. reflexivity.
Qed.

Lemma inline_iteration_slept (self : Main1.DataStarStreamer)
    (fragment_generator : nat -> pull) (i calls : nat) :
  match Main1.iteration python self fragment_generator i calls with
  | (effs, Main1.Going calls') =>
      Main1.slept (Main1.interval self) effs /\ (calls <= calls' <= S calls)%nat
  | (effs, Main1.Raised _) => effs = []
  end.
Proof.
  unfold Main1.iteration, Main1.slept.
  destruct (Main1.condition_callable self i); [|split; [auto|lia]].
  destruct (fragment_generator calls) as [v|e]; auto.
  destruct (truthy v); [|split; [auto|lia]].
  destruct (Main1.call_with python v); auto. split; [eauto|lia].
Qed.

(** The inline streamer of main_1.py sleeps for its interval at the end of
    every iteration that raises nothing, after at most one block, and calls its
    source at most once per iteration; it catches nothing: an exception of the
    source or of the constructor ends the stream in the iteration it occurs in,
    with nothing emitted there. *)
Theorem inline_streamer_sleeps (self : Main1.DataStarStreamer)
    (fragment_generator : nat -> pull) (n : nat) :
  match Main1.stream python self fragment_generator n with
  | (tr, Main1.Going calls) =>
      List.length tr = n /\ Forall (Main1.slept (Main1.interval self)) tr
      /\ (calls <= n)%nat
  | (tr, Main1.Raised _) =>
      exists before, tr = (before ++ [[]])%list
                     /\ Forall (Main1.slept (Main1.interval self)) before
  end.
Proof.
  unfold Main1.stream.
  assert (H : forall n i calls,
    match Main1.iterate python self fragment_generator n i calls with
    | (tr, Main1.Going calls') =>
        List.length tr = n /\ Forall (Main1.slept (Main1.interval self)) tr
        /\ (calls' <= calls + n)%nat
    | (tr, Main1.Raised _) =>
        exists before, tr = (before ++ [[]])%list
                       /\ Forall (Main1.slept (Main1.interval self)) before
    end).
  { clear n. induction n as [|n IH]; intros i calls; cbn [Main1.iterate].
    - repeat split; auto. lia.
    - pose proof (inline_iteration_slept self fragment_generator i calls) as Hit.
      destruct (Main1.iteration python self fragment_generator i calls) as [effs [c|e]].
      + destruct Hit as [Hs Hc]. specialize (IH (S i) c).
        destruct (Main1.iterate python self fragment_generator n (S i) c) as [tr [c'|e]].
        * destruct IH as (Hlen & Hall & Hc'). cbn [List.length].
          repeat split; auto. lia.
        * destruct IH as (before & -> & Hall). exists (effs :: before). split; auto.
      + subst. exists []. split; auto. }
  specialize (H n 0%nat 0%nat).
  destruct (Main1.iterate python self fragment_generator n 0 0) as [tr [c|e]]; auto.
Qed.

(** The inline constructor called with a mapping unpacked raises TypeError
    when the mapping has a key that is none of its five parameters (the
    library's selector key, for one) or has no fragment key, and when the value
    is no mapping at all; the inline streamer, which catches nothing, then ends
    in that iteration. *)
Theorem inline_call_type_errors (fragment : pyval) :
  (forall d, fragment = PDict d ->
             (exists k, In k (map fst d) /\ ~ In k Main1.parameters)
             \/ dict_lookup "fragment" d = None) ->
  Main1.call_with python fragment = Raise TypeError
  /\ forall self fragment_generator i calls,
       Main1.condition_callable self i = true ->
       fragment_generator calls = Yielded fragment ->
       truthy fragment = true ->
       Main1.iteration python self fragment_generator i calls = ([], Main1.Raised TypeError).
Proof.
  intros H.
  assert (Hc : Main1.call_with python fragment = Raise TypeError).
  { destruct fragment; try reflexivity. unfold Main1.call_with.
    destruct (forallb _ d) eqn:Hall; [|reflexivity].
    destruct (H d eq_refl) as [(k & Hin & Hnot)|Hf].
    - exfalso. apply Hnot. rewrite forallb_forall in Hall.
      apply in_map_iff in Hin. destruct Hin as ([k' v] & <- & Hin).
      specialize (Hall _ Hin). cbn [fst] in *. apply existsb_exists in Hall.
      destruct Hall as (x & Hx & Heq). apply String.eqb_eq in Heq. subst. exact Hx.
    - rewrite Hf. reflexivity. }
  split; [exact Hc|].
  intros self fragment_generator i calls Hg Hy Ht.
  unfold Main1.iteration. rewrite Hg, Hy, Ht, Hc. reflexivity.
Qed.

(** The payload of /feed sets use_view_transitions to False, and the streamer's
    block for it has no vt line; /feed_alt passes it to create_sse_stream as a
    default, and its block has the line vt false between the selector line and
    the fragment line.  The two routes agree on the other lines. *)
Theorem feed_and_feed_alt (i : Z) (current_time : string) :
  pull_blocks python (Yielded (feed_payload i current_time))
  = ["event: datastar-fragment" ++ nl ++ "data: merge prepend_element" ++ nl
     ++ "data: selector #feeds" ++ nl
     ++ "data: fragment " ++ feed_text i current_time ++ nl ++ nl]
  /\ event_blocks python (feed_alt_payload i current_time)
       (Some PREPEND) (Some "#feeds") None (Some false) FRAGMENT
     = Ok ["event: datastar-fragment" ++ nl ++ "data: merge prepend_element" ++ nl
           ++ "data: selector #feeds" ++ nl ++ "data: vt false" ++ nl
           ++ "data: fragment " ++ feed_text i current_time ++ nl ++ nl].
Proof. split; reflexivity. Qed.

End Inline.

(** ** The properties at sample inputs *)

Lemma fragment_lines_in_code_order_witness :
  fragment_item both_item = true
  /\ exists lines,
       fragment_data_lines no_repr full_event both_item = Ok lines
       /\ _format_fragment_sse no_repr full_event both_item = Ok (data_block lines)
       /\ in_order code_order (map field_name lines) = true
       /\ last lines "" = "fragment " ++ item_text both_item.
Proof.
  split; [reflexivity|].
  apply (fragment_lines_in_code_order no_repr full_event both_item). reflexivity.
Defined.

(** C1, as stated, fails: an item with a merge and a selector has its merge
    line before its selector line, which is not the order selector, merge. *)
Lemma spec_order_counterexample :
  fragment_item both_item = true
  /\ (forall python,
        fragment_data_lines python plain_event both_item
        = Ok ["merge prepend_element"; "selector #feeds"; "fragment x"])
  /\ in_order spec_order
       (map field_name ["merge prepend_element"; "selector #feeds"; "fragment x"]) = false.
Proof. repeat split. Qed.

Lemma optional_lines_iff_truthy_witness :
  fragment_item empty_item = true
  /\ exists lines,
       fragment_data_lines no_repr full_event empty_item = Ok lines
       /\ _format_fragment_sse no_repr full_event empty_item = Ok (data_block lines)
       /\ has_line "merge" lines = true
       /\ has_line "selector" lines = true
       /\ has_line "settle" lines = true
       /\ has_line "vt" lines = true
       /\ has_line "redirect" lines = true
       /\ has_line "error" lines = true
       /\ (use_view_transitions full_event = Some false -> In "vt false" lines)
       /\ In "fragment " lines.
Proof.
  split; [reflexivity|].
  apply (optional_lines_iff_truthy no_repr full_event empty_item). reflexivity.
Defined.

(** C2, as stated, fails: a settle_duration that is set, to 0, gives no settle
    line. *)
Lemma zero_settle_counterexample :
  is_set (settle_duration zero_settle_event) = true
  /\ (forall python,
        fragment_data_lines python zero_settle_event (PStr "x") = Ok ["fragment x"])
  /\ has_line "settle" ["fragment x"] = false.
Proof. repeat split. Qed.



Lemma content_validation_witness :
  DatastarEvent_init (PInt 3) None None None None None None SIGNAL = Raise AssertionError
  /\ DatastarEvent_stream no_repr
       {| content := PList [PStr "a"; no_fragment_item; PStr "b"]; merge := None;
          selector := None; settle_duration := None; use_view_transitions := None;
          redirect := None; error := None; event_type := FRAGMENT |}
     = (["event: datastar-fragment" ++ nl ++ "data: fragment a" ++ nl ++ nl], Some KeyError).
Proof.
  destruct (content_validation no_repr) as (Hinit & _ & Hitem & _).
  split.
  - rewrite Hinit. reflexivity.
  - apply (Hitem _ [PStr "a"] [("selector", PStr "#feeds")] [PStr "b"]); reflexivity.
Defined.

(** C4, as stated, fails: a list is no content of a signal event, and the event
    is built and encoded all the same. *)
Lemma signal_list_counterexample :
  spec_shape SIGNAL (PList [PStr "a"; PStr "b"]) = false
  /\ exists event,
       create_signal (PList [PStr "a"; PStr "b"]) = Ok event
       /\ forall python,
            DatastarEvent_stream python event
            = (["event: datastar-signal" ++ nl ++ "data: a" ++ nl ++ nl;
                "event: datastar-signal" ++ nl ++ "data: b" ++ nl ++ nl], None).
Proof. split; [reflexivity|]. eexists. split; reflexivity. Qed.




(** C7 at a failing input: the first payload is a list whose second item has no
    fragment, the second payload a string.  The first iteration emits a block
    and prints the KeyError, recording no time; the second, one tick of the
    clock later with an interval of 1000, emits again. *)
Theorem partial_event_then_emission (python : rendering) :
  DatastarStreamer_stream python open_streamer
    [Yielded (PList [PStr "a"; no_fragment_item]); Yielded (PStr "b")] fast_clock 2
  = ([(5000, [Emit ("event: datastar-fragment" ++ nl ++ "data: fragment a" ++ nl ++ nl);
              Print KeyError]);
      (5001, [Emit ("event: datastar-fragment" ++ nl ++ "data: fragment b" ++ nl ++ nl);
              Sleep 100])],
     Continue {| generator := []; last_yield_time := 5001 |}).
Proof. reflexivity. Qed.

(** C8 at a failing input: an iteration in which the source raises prints the
    exception and goes to the next iteration with no sleep in between. *)
Theorem failure_skips_sleep (python : rendering) :
  DatastarStreamer_stream python open_streamer
    [Failed SourceError; Yielded (PInt 3); Yielded (PStr "b")] fast_clock 3
  = ([(5000, [Print SourceError]);
      (5001, [Print AssertionError]);
      (5002, [Emit ("event: datastar-fragment" ++ nl ++ "data: fragment b" ++ nl ++ nl);
              Sleep 100])],
     Continue {| generator := []; last_yield_time := 5002 |}).
Proof. reflexivity. Qed.

(** C10, as stated, fails on the wire: a payload whose text holds a line feed
    followed by data: settle 5 gives a block whose text has a settle data
    line. *)
Lemma streamer_settle_counterexample :
  (forall python,
      DatastarStreamer_stream python open_streamer
        [Yielded (PStr ("x" ++ nl ++ "data: settle 5"))] fast_clock 1
      = ([(5000, [Emit ("event: datastar-fragment" ++ nl ++ "data: fragment x" ++ nl
                        ++ "data: settle 5" ++ nl ++ nl);
                  Sleep 100])],
         Continue {| generator := []; last_yield_time := 5000 |}))
  /\ wire_data_lines ("event: datastar-fragment" ++ nl ++ "data: fragment x" ++ nl
                      ++ "data: settle 5" ++ nl ++ nl)
     = ["fragment x"; "settle 5"]
  /\ has_line "settle" ["fragment x"; "settle 5"] = true.
Proof. repeat split. Qed.


(** ** More properties at sample inputs *)

Lemma list_content_blocks_witness :
  DatastarEvent_stream no_repr broken_list_event
  = (["event: datastar-fragment" ++ nl ++ "data: fragment a" ++ nl ++ nl], Some KeyError)
  /\ Forall2 (fun item b => format_sse no_repr broken_list_event item = Ok b)
       [PStr "a"] ["event: datastar-fragment" ++ nl ++ "data: fragment a" ++ nl ++ nl]
  /\ exists item,
       nth_error [PStr "a"; no_fragment_item; PStr "b"] 1 = Some item
       /\ format_sse no_repr broken_list_event item = Raise KeyError.
Proof.
  split; [reflexivity|].
  apply (list_content_blocks no_repr broken_list_event
           [PStr "a"; no_fragment_item; PStr "b"]
           ["event: datastar-fragment" ++ nl ++ "data: fragment a" ++ nl ++ nl]
           (Some KeyError)); reflexivity.
Defined.

Lemma fragment_list_encodes_witness :
  exists event blocks,
    create_fragment (PList [both_item; PStr "x"; empty_item])
      (Some INNER) None None None None None = Ok event
    /\ DatastarEvent_stream no_repr event = (blocks, None)
    /\ List.length blocks = 3%nat.
Proof.
  apply (fragment_list_encodes no_repr [both_item; PStr "x"; empty_item]
           (Some INNER) None None None None None).
  repeat constructor.
Defined.

Lemma merge_value_or_error_witness :
  _format_fragment_sse no_repr full_event (PDict string_merge_item) = Raise AttributeError
  /\ exists rest,
       fragment_data_lines no_repr full_event (PDict kind_merge_item)
       = Ok ("merge datastar-signal" :: rest).
Proof.
  split.
  - apply (merge_value_or_error no_repr full_event string_merge_item);
      [reflexivity | discriminate].
  - apply (merge_value_or_error no_repr full_event kind_merge_item);
      [reflexivity | discriminate].
Defined.

Lemma merge_line_token_witness :
  exists token,
    value_of (resolved_merge plain_event both_item) = Ok token
    /\ "merge prepend_element" = "merge " ++ token.
Proof.
  apply (merge_line_token no_repr plain_event both_item
           ["merge prepend_element"; "selector #feeds"; "fragment x"]).
  - reflexivity.
  - simpl. auto.
  - reflexivity.
Defined.

Lemma fragment_block_lines_witness :
  exists lines b,
    fragment_data_lines no_repr full_event both_item = Ok lines
    /\ format_sse no_repr full_event both_item = Ok b
    /\ text_lines b
       = "event: datastar-fragment" :: (map (append "data: ") lines ++ [""; ""])%list.
Proof.
  apply (fragment_block_lines no_repr full_event both_item); reflexivity.
Defined.

Lemma streamer_spacing_witness :
  fst (DatastarStreamer_stream no_repr open_streamer
         [Yielded (PStr "a"); Yielded (PStr "b")] slow_clock 3)
  = [(5000, [Emit ("event: datastar-fragment" ++ nl ++ "data: fragment a" ++ nl ++ nl);
             Sleep 100]);
     (5600, [Sleep 100]);
     (6200, [Emit ("event: datastar-fragment" ++ nl ++ "data: fragment b" ++ nl ++ nl);
             Sleep 100])]
  /\ interval open_streamer <= 6200 - 5000.
Proof.
  split; [reflexivity|].
  apply (streamer_spacing no_repr open_streamer [Yielded (PStr "a"); Yielded (PStr "b")]
           slow_clock 3 [] [(5600, [Sleep 100])] [] 5000 6200
           [Emit ("event: datastar-fragment" ++ nl ++ "data: fragment a" ++ nl ++ nl);
            Sleep 100]
           [Emit ("event: datastar-fragment" ++ nl ++ "data: fragment b" ++ nl ++ nl);
            Sleep 100]).
  - vm_compute. discriminate.
  - reflexivity.
  - reflexivity.
  - discriminate.
Defined.

Lemma emission_needs_gate_witness :
  6200 = slow_clock 2
  /\ condition_callable open_streamer 2 = true
  /\ (0 <= interval open_streamer -> interval open_streamer <= 6200).
Proof.
  apply (emission_needs_gate no_repr open_streamer [Yielded (PStr "a"); Yielded (PStr "b")]
           slow_clock 3
           [(5000, [Emit ("event: datastar-fragment" ++ nl ++ "data: fragment a" ++ nl ++ nl);
                    Sleep 100]);
            (5600, [Sleep 100])] [] 6200
           [Emit ("event: datastar-fragment" ++ nl ++ "data: fragment b" ++ nl ++ nl);
            Sleep 100]).
  - reflexivity.
  - discriminate.
Defined.

Lemma closed_gate_only_sleeps_witness :
  DatastarStreamer_stream no_repr shut_streamer [Yielded (PStr "a")] fast_clock 3
  = ([(5000, [Sleep 100]); (5001, [Sleep 100]); (5002, [Sleep 100])],
     Continue {| generator := [Yielded (PStr "a")]; last_yield_time := 0 |}).
Proof.
  apply (closed_gate_only_sleeps no_repr shut_streamer [Yielded (PStr "a")] fast_clock 3).
  intros i _. left. reflexivity.
Defined.

Lemma create_sse_stream_propagates_witness :
  create_sse_stream no_repr
    [Yielded (PStr "a"); Failed SourceError; Yielded (PStr "b")]
    None None None None FRAGMENT 7
  = ([Emit ("event: datastar-fragment" ++ nl ++ "data: fragment a" ++ nl ++ nl); Sleep 7],
     Some SourceError)
  /\ create_sse_stream no_repr
       [Yielded (PStr "a"); Yielded (PList [PStr "b"; no_fragment_item]); Yielded (PStr "c")]
       None None None None FRAGMENT 7
     = ([Emit ("event: datastar-fragment" ++ nl ++ "data: fragment a" ++ nl ++ nl); Sleep 7;
         Emit ("event: datastar-fragment" ++ nl ++ "data: fragment b" ++ nl ++ nl)],
        Some KeyError).
Proof.
  destruct (create_sse_stream_propagates no_repr [PStr "a"]
              [["event: datastar-fragment" ++ nl ++ "data: fragment a" ++ nl ++ nl]]
              None None None None FRAGMENT 7) as (Hsource & _ & Hpartial).
  - repeat constructor.
  - split.
    + apply (Hsource SourceError [Yielded (PStr "b")]).
    + apply (Hpartial (PList [PStr "b"; no_fragment_item])
               {| content := PList [PStr "b"; no_fragment_item]; merge := None;
                  selector := None; settle_duration := None;
                  use_view_transitions := None; redirect := None; error := None;
                  event_type := FRAGMENT |}
               ["event: datastar-fragment" ++ nl ++ "data: fragment b" ++ nl ++ nl]
               KeyError [Yielded (PStr "c")]); reflexivity.
Defined.

Lemma inline_lines_in_spec_order_witness :
  Main1.data_lines no_repr (PStr "x") (PMerge PREPEND) (PStr "#feeds") PNone (PBool false)
  = Ok ["selector #feeds"; "merge prepend_element"; "vt false"; "fragment x"]
  /\ in_order spec_order
       (map field_name ["selector #feeds"; "merge prepend_element"; "vt false"; "fragment x"])
     = true
  /\ last ["selector #feeds"; "merge prepend_element"; "vt false"; "fragment x"] ""
     = "fragment x".
Proof.
  split; [reflexivity|].
  apply (inline_lines_in_spec_order no_repr (PStr "x") (PMerge PREPEND) (PStr "#feeds")
           PNone (PBool false)).
  reflexivity.
Defined.

Lemma inline_call_type_errors_witness :
  Main1.call_with no_repr (feed_payload 1 "now") = Raise TypeError.
Proof.
  destruct (inline_call_type_errors no_repr (feed_payload 1 "now")) as [H _].
  - intros d Hd. inversion Hd; subst. left. exists "selector". split.
    + simpl. auto.
    + simpl. intros [H|[H|[H|[H|[H|[]]]]]]; discriminate.
  - exact H.
Defined.
